(** * pdfService.js: page selection of [splitPDF] and the recompression loop
      of [compressPDF]

    A shallow embedding of the two pieces of logic that
    [server/services/pdfService.js] owns itself:

    - the page-range parser inside [splitPDF] (the block that fills the
      local array [pageIndices] from [options.pages]);
    - [compressPDF]: the quality-tier table, the inner helper
      [performCompression] and the bounded target-size loop around it.

    Everything the service delegates (pdf-lib's load and save, sharp's JPEG
    encoder) is an explicit collaborator, see [Collaborators] below.

    Further modules cover [rotatePDF], [splitPDF] with [mode === 'all'],
    the colour parser of [addWatermark], [protectPDF] and [unlockPDF], the
    compress route and the browser's [FileUploader], each with the calls
    it delegates as a type class of its own.

    Numbers.  JavaScript numbers are IEEE 754 binary64.  Where the source
    computes with fractions ([resizeRatio], [width * r], [Math.round]) the
    model uses Rocq's primitive binary64 [float], so every rounding is the
    one the program performs; so it does for the angles that [rotatePDF]
    adds up.  Where the source only handles integers (page numbers, the
    JPEG quality, byte counts) the model uses [Z], see [jsnum]. *)

Set Warnings "-inexact-float".
From Stdlib Require Import ZArith NArith Floats Ascii String DecimalString
  DecimalN.
From stdpp Require Import gmap list strings sorting.

(** ** JavaScript values and built-ins used by the service *)

Module JS.

(** A string is a sequence of UTF-16 code units. *)
Definition jsstring := list N.

(** The code units of a Latin-1 literal. *)
Definition js (s : string) : jsstring :=
  map N_of_ascii (list_ascii_of_string s).

Definition comma : N := 44.
Definition hyphen : N := 45.
Definition plus : N := 43.

(** An integer-valued number, or [NaN].  [Num z] stands for the double
    nearest to [z]; [parseInt] yields no fraction, and the resolver only
    compares these numbers with each other, with [0] and with the page
    count, and adds or subtracts one, so below [2^53] the arithmetic is
    exact, and above it every comparison against a page count comes out the
    same.  Negative zero is [Num 0] (the program cannot tell them apart). *)
Inductive jsnum : Type :=
| NaN
| Num (z : Z).

Definition js_sub (a b : jsnum) : jsnum :=
  match a, b with
  | Num x, Num y => Num (x - y)
  | _, _ => NaN
  end.

Definition js_add (a b : jsnum) : jsnum :=
  match a, b with
  | Num x, Num y => Num (x + y)
  | _, _ => NaN
  end.

Definition js_mul (a b : jsnum) : jsnum :=
  match a, b with
  | Num x, Num y => Num (x * y)
  | _, _ => NaN
  end.

(** Relational operators: any comparison with [NaN] is [false]. *)
Definition js_le (a b : jsnum) : bool :=
  match a, b with
  | Num x, Num y => (x <=? y)%Z
  | _, _ => false
  end.

Definition js_lt (a b : jsnum) : bool :=
  match a, b with
  | Num x, Num y => (x <? y)%Z
  | _, _ => false
  end.

Definition js_ge (a b : jsnum) : bool := js_le b a.

(** [ToBoolean] on a number: [0] and [NaN] are falsy. *)
Definition truthy_num (a : jsnum) : bool :=
  match a with
  | NaN => false
  | Num z => negb (z =? 0)%Z
  end.

(** [ToBoolean] on a string: only the empty string is falsy. *)
Definition truthy_string (s : jsstring) : bool :=
  match s with
  | [] => false
  | _ :: _ => true
  end.

(** WhiteSpace and LineTerminator code units (ECMA-262, 12.2 and 12.3). *)
Definition is_white (c : N) : bool :=
  ((9 <=? c) && (c <=? 13) || (c =? 32) || (c =? 160) || (c =? 5760)
   || (8192 <=? c) && (c <=? 8202) || (c =? 8232) || (c =? 8233)
   || (c =? 8239) || (c =? 8287) || (c =? 12288) || (c =? 65279))%N.

Fixpoint trim_start (s : jsstring) : jsstring :=
  match s with
  | [] => []
  | c :: s' => if is_white c then trim_start s' else s
  end.

(** [String.prototype.trim]. *)
Definition trim (s : jsstring) : jsstring :=
  rev (trim_start (rev (trim_start s))).

(** [String.prototype.includes] for a one-unit needle. *)
Definition includes (s : jsstring) (c : N) : bool :=
  existsb (N.eqb c) s.

(** [String.prototype.split] for a one-unit separator: never empty,
    [split "" = [""]], and an empty piece for every adjacent, leading or
    trailing separator. *)
Fixpoint split (sep : N) (s : jsstring) : list jsstring :=
  match s with
  | [] => [[]]
  | c :: s' =>
      if (c =? sep)%N then [] :: split sep s'
      else match split sep s' with
           | [] => [[c]]
           | piece :: pieces => (c :: piece) :: pieces
           end
  end.

(** The value of a code unit as a digit of the given radix, if it is one. *)
Definition digit_value (radix : N) (c : N) : option N :=
  let v :=
    (if (48 <=? c) && (c <=? 57) then Some (c - 48)
     else if (97 <=? c) && (c <=? 122) then Some (c - 97 + 10)
     else if (65 <=? c) && (c <=? 90) then Some (c - 65 + 10)
     else None)%N in
  match v with
  | Some d => if (d <? radix)%N then Some d else None
  | None => None
  end.

(** The longest prefix of radix digits, as digit values. *)
Fixpoint take_digits (radix : N) (s : jsstring) : list N :=
  match s with
  | [] => []
  | c :: s' =>
      match digit_value radix c with
      | Some d => d :: take_digits radix s'
      | None => []
      end
  end.

Definition digits_value (radix : N) (ds : list N) : Z :=
  fold_left (fun acc d => acc * Z.of_N radix + Z.of_N d)%Z ds 0%Z.

(** [parseInt(s)] with no radix argument (ECMA-262, 19.2.5): leading white
    space, an optional sign, an optional [0x]/[0X] prefix selecting radix
    16, then the longest prefix of digits; [NaN] when that prefix is
    empty. *)
Definition parseInt (s : jsstring) : jsnum :=
  let s1 := trim_start s in
  let '(sign, s2) :=
    match s1 with
    | c :: t => if (c =? hyphen)%N then ((-1)%Z, t)
                else if (c =? plus)%N then (1%Z, t)
                else (1%Z, s1)
    | [] => (1%Z, s1)
    end in
  let '(radix, s3) :=
    match s2 with
    | c0 :: x :: t =>
        if ((c0 =? 48) && ((x =? 120) || (x =? 88)))%N then (16%N, t)
        else (10%N, s2)
    | _ => (10%N, s2)
    end in
  match take_digits radix s3 with
  | [] => NaN
  | ds => Num (sign * digits_value radix ds)
  end.

(** [Math.round] on a binary64: the nearest integer, ties towards
    [+Infinity]; [NaN], the infinities and the zeros are returned as they
    are, and so is every double with a non-negative exponent, which is
    already integral.  The integer is computed exactly from the mantissa
    and the exponent, not as [floor (x + 0.5)] in floating point, which is
    wrong at [0.49999999999999994]. *)
Definition Math_round (x : float) : float :=
  match Prim2SF x with
  | S754_finite s m e =>
      if (0 <=? e)%Z then x
      else
        let d := (2 ^ (- e))%Z in
        if s then
          PrimFloat.opp
            (PrimFloat.of_uint63
               (Uint63.of_Z (- ((2 * Z.neg m + d) / (2 * d)))%Z))
        else PrimFloat.of_uint63 (Uint63.of_Z ((2 * Z.pos m + d) / (2 * d))%Z)
  | _ => x
  end.

(** [Math.max] of two numbers: [NaN] if either is. *)
Definition Math_max (a b : float) : float :=
  if PrimFloat.is_nan a || PrimFloat.is_nan b then PrimFloat.nan
  else if PrimFloat.ltb a b then b
  else if PrimFloat.ltb b a then a
  else if PrimFloat.is_zero a && negb (PrimFloat.get_sign b) then b
  else a.

End JS.

(** ** Outcomes of a call that may throw *)

Inductive completion (A : Type) : Type :=
| Normal (a : A)
| Throw.
Arguments Normal {A} a.
Arguments Throw {A}.

(** ** splitPDF: the page-range parser *)

Module Split.
Import JS.

(** The loop condition [i <= end && i < totalPages]. *)
Definition loop_cond (i end_ : jsnum) (totalPages : Z) : bool :=
  js_le i end_ && js_lt i (Num totalPages).

(** [for (let i = start; i <= end && i < totalPages; i++)
       if (i >= 0) pageIndices.push(i);]
    run for at most [fuel] iterations. *)
Fixpoint for_range (fuel : nat) (i end_ : jsnum) (totalPages : Z)
    (pageIndices : list jsnum) : list jsnum :=
  match fuel with
  | O => pageIndices
  | S fuel' =>
      if loop_cond i end_ totalPages then
        for_range fuel' (js_add i (Num 1)) end_ totalPages
          (if js_ge i (Num 0) then pageIndices ++ [i] else pageIndices)
      else pageIndices
  end.

(** The loop leaves as soon as [i] reaches [totalPages], so it iterates at
    most [totalPages - start] times ([range_loop_unfold] below shows that
    this fuel never cuts the loop short). *)
Definition iterations_bound (start : jsnum) (totalPages : Z) : nat :=
  match start with
  | Num s => Z.to_nat (totalPages - s)
  | NaN => O
  end.

Definition range_loop (start end_ : jsnum) (totalPages : Z)
    (pageIndices : list jsnum) : list jsnum :=
  for_range (iterations_bound start totalPages) start end_ totalPages
    pageIndices.

(** [n => parseInt(n.trim()) - 1] *)
Definition to_index (n : jsstring) : jsnum :=
  js_sub (parseInt (trim n)) (Num 1).

(** The body of [for (const part of parts)]: what one token appends to
    [pageIndices].  In [const [start, end] = ...] a missing element is
    [undefined], with which every comparison is false, so nothing is
    pushed. *)
Definition push_part (totalPages : Z) (pageIndices : list jsnum)
    (part : jsstring) : list jsnum :=
  if includes part hyphen then
    match map to_index (split hyphen part) with
    | start :: end_ :: _ => range_loop start end_ totalPages pageIndices
    | _ => pageIndices
    end
  else
    let pageNum := to_index part in
    if js_ge pageNum (Num 0) && js_lt pageNum (Num totalPages)
    then pageIndices ++ [pageNum]
    else pageIndices.

(** The value of [pageIndices] when [newPdf.copyPages(pdf, pageIndices)] is
    reached, i.e. whenever [mode] is not ['all'].  [pages] is
    [options.pages]: a form field, absent or a string. *)
Definition splitPDF_pageIndices (pages : option jsstring) (totalPages : Z)
    : list jsnum :=
  match pages with
  | Some s =>
      if truthy_string s
      then fold_left (push_part totalPages) (split comma s) []
      else [Num 0]
  | None => [Num 0]
  end.

(** The block has no [throw] and calls only total string and number
    primitives: it always completes normally. *)
Definition splitPDF_parse (pages : option jsstring) (totalPages : Z)
    : completion (list jsnum) :=
  Normal (splitPDF_pageIndices pages totalPages).

(** A token whose numeric parse fails: the single number, or one of the
    two bounds of a range, is [NaN]. *)
Definition parse_fails (part : jsstring) : bool :=
  if includes part hyphen then
    match map to_index (split hyphen part) with
    | start :: end_ :: _ =>
        match start, end_ with
        | Num _, Num _ => false
        | _, _ => true
        end
    | _ => true
    end
  else
    match to_index part with
    | NaN => true
    | Num _ => false
    end.

(** An index the parser may emit for a document of [totalPages] pages. *)
Definition valid_index (totalPages : Z) (x : jsnum) : Prop :=
  exists i, x = Num i /\ (0 <= i < totalPages)%Z.

(** The indices of an inclusive zero-based range, clipped to the
    document: ascending from [max 0 start] to [min end (totalPages - 1)]. *)
Definition clipped (start end_ totalPages : Z) : list Z :=
  seqZ (Z.max 0 start)
    (Z.min end_ (totalPages - 1) - Z.max 0 start + 1)%Z.

End Split.

(** ** compressPDF *)

Module Compress.
Import JS.

Definition bytes := list Byte.byte.

(** An entry of a stream dictionary, as far as the service looks at it:
    a name, a number, or anything else (a reference, an array, ...). *)
Inductive PDFValue : Type :=
| PDFName (name : string)
| PDFNumber (numberValue : float)
| PDFOtherValue (tag : N).

(** An indirect object: a raw stream with its dictionary and contents, or
    any other object ([obj instanceof PDFRawStream] is false). *)
Inductive PDFObject : Type :=
| PDFRawStream (dict : gmap string PDFValue) (contents : bytes)
| PDFOtherObject (tag : N).

(** [PDFRef]: object number and generation number. *)
Definition PDFRef : Type := N * N.

(** [pdfDoc.context.indirectObjects], a [Map<PDFRef, PDFObject>]. *)
Abbreviation PDFContext := (gmap PDFRef PDFObject).

(** The library calls of [performCompression].  Each may throw.
    - [PDFDocument_load]: [PDFDocument.load(pdfBytes, {ignoreEncryption:
      true})], giving the document's object table;
    - [sharp_resize_jpeg contents w h q]:
      [sharp(contents).resize(w, h, {fit: 'inside'}).jpeg({quality: q})
       .toBuffer()];
    - [PDFDocument_save]: the six metadata setters followed by
      [pdfDoc.save({useObjectStreams: true})]. *)
Class Collaborators : Type := {
  PDFDocument_load : bytes -> completion PDFContext;
  sharp_resize_jpeg : bytes -> float -> float -> Z -> completion bytes;
  PDFDocument_save : PDFContext -> completion bytes
}.

(** [options] of [compressPDF]: form fields, absent or strings. *)
Record Options : Type := {
  opt_quality : option jsstring;
  opt_targetSize : option jsstring
}.

(** One call of [performCompression], by its arguments [(q, r)]. *)
Definition call : Type := Z * float.

(** A computation that may throw and that records, in call order, every
    call of [performCompression] it makes.  The record is instrumentation:
    the program keeps no such list. *)
Definition Run (A : Type) : Type := list call -> list call * completion A.

Definition run_ret {A} (a : A) : Run A := fun log => (log, Normal a).

Definition run_throw {A} : Run A := fun log => (log, Throw).

Definition run_bind {A B} (m : Run A) (k : A -> Run B) : Run B :=
  fun log =>
    match m log with
    | (log', Normal a) => k a log'
    | (log', Throw) => (log', Throw)
    end.

Notation "'let*' x ':=' m 'in' k" := (run_bind m (fun x => k))
  (at level 10, x name, m at level 100, k at level 200).

(** [numberValue] of a dictionary entry, as a factor of a product: the
    property is [undefined] on anything but a [PDFNumber], and
    [undefined * r] is [NaN]. *)
Definition numberValue_of (v : PDFValue) : float :=
  match v with
  | PDFNumber x => x
  | _ => PrimFloat.nan
  end.

(** [v === PDFName.of(name)] for the result [v] of [dict.get]. *)
Definition is_name (v : option PDFValue) (name : string) : bool :=
  match v with
  | Some (PDFName n) => String.eqb n name
  | _ => false
  end.

(** [Math.max(1, Math.round(dimension * r))] *)
Definition new_dimension (dimension r : float) : float :=
  Math_max 1 (Math_round (PrimFloat.mul dimension r)).

(** The dictionary of [pdfDoc.context.stream(compressedBuffer, {...})]. *)
Definition new_stream_dict (newWidth newHeight : float)
    : gmap string PDFValue :=
  <["Type" := PDFName "XObject"]>
  (<["Subtype" := PDFName "Image"]>
  (<["Width" := PDFNumber newWidth]>
  (<["Height" := PDFNumber newHeight]>
  (<["BitsPerComponent" := PDFNumber 8]>
  (<["ColorSpace" := PDFName "DeviceRGB"]>
  (<["Filter" := PDFName "DCTDecode"]> ∅)))))).

(** [quality -= 15; if (quality < 10) quality = 10;] *)
Definition next_quality (quality : Z) : Z :=
  let quality := (quality - 15)%Z in
  if (quality <? 10)%Z then 10%Z else quality.

(** [resizeRatio -= 0.15; if (resizeRatio < 0.2) resizeRatio = 0.2;] *)
Definition next_resizeRatio (resizeRatio : float) : float :=
  let resizeRatio := PrimFloat.sub resizeRatio 0.15 in
  if PrimFloat.ltb resizeRatio 0.2 then 0.2%float else resizeRatio.

(** The two updates at the end of an iteration, on a pair. *)
Definition next_call (c : call) : call :=
  (next_quality (fst c), next_resizeRatio (snd c)).

(** The arguments of the attempt with index [n] (from 0) of a loop whose
    first attempt has arguments [c]. *)
Definition schedule_from (c : call) (n : nat) : call :=
  Nat.iter n next_call c.

(** The loop of [compressPDF] starts from [quality = 70] and
    [resizeRatio = 0.8]. *)
Definition schedule (n : nat) : call :=
  schedule_from (70%Z, 0.8%float) n.

Section WithCollaborators.
Context {lib : Collaborators}.

(** The body of the [try] block, up to the new stream.  Reading
    [.numberValue] of an absent [Width] or [Height] is a TypeError; so is
    any failure of the encoder. *)
Definition reencode_image (q : Z) (r : float) (dict : gmap string PDFValue)
    (contents : bytes) : completion PDFObject :=
  match dict !! "Width", dict !! "Height" with
  | Some w, Some h =>
      let newWidth := new_dimension (numberValue_of w) r in
      let newHeight := new_dimension (numberValue_of h) r in
      match sharp_resize_jpeg contents newWidth newHeight q with
      | Normal compressedBuffer =>
          Normal (PDFRawStream (new_stream_dict newWidth newHeight)
                               compressedBuffer)
      | Throw => Throw
      end
  | _, _ => Throw
  end.

(** Only a raw stream with [Subtype] [Image] and [Filter] [DCTDecode] is
    handled. *)
Definition eligible (obj : PDFObject) : bool :=
  match obj with
  | PDFRawStream dict _ =>
      is_name (dict !! "Subtype") "Image"
      && is_name (dict !! "Filter") "DCTDecode"
  | PDFOtherObject _ => false
  end.

(** The body of [for (const [ref, obj] of objects)] on the object table:
    [pdfDoc.context.assign(ref, newStream)] after a successful re-encode,
    nothing in the [catch] (it only logs a warning).  The counter
    [compressedCount] is written and never read. *)
Definition compress_object (q : Z) (r : float) (ctx : PDFContext)
    (entry : PDFRef * PDFObject) : PDFContext :=
  let '(ref, obj) := entry in
  match obj with
  | PDFRawStream dict contents =>
      if eligible obj then
        match reencode_image q r dict contents with
        | Normal newStream => <[ref := newStream]> ctx
        | Throw => ctx
        end
      else ctx
  | PDFOtherObject _ => ctx
  end.

(** [pdfDoc.context.enumerateIndirectObjects()]: the entries of the table,
    taken once, before the loop. *)
Definition enumerateIndirectObjects (ctx : PDFContext)
    : list (PDFRef * PDFObject) :=
  map_to_list ctx.

(** The object table after the loop over all objects. *)
Definition compress_objects (q : Z) (r : float) (ctx : PDFContext)
    : PDFContext :=
  fold_left (compress_object q r) (enumerateIndirectObjects ctx) ctx.

(** [performCompression(q, r)], a closure over [pdfBytes]: it loads the
    document from [pdfBytes] on every call. *)
Definition performCompression (pdfBytes : bytes) (q : Z) (r : float)
    : completion bytes :=
  match PDFDocument_load pdfBytes with
  | Normal ctx => PDFDocument_save (compress_objects q r ctx)
  | Throw => Throw
  end.

(** [await performCompression(quality, resizeRatio)], recorded. *)
Definition attempt (pdfBytes : bytes) (quality : Z) (resizeRatio : float)
    : Run bytes :=
  fun log =>
    (log ++ [(quality, resizeRatio)],
     performCompression pdfBytes quality resizeRatio).

(** [compressedBytes.length <= targetSize] *)
Definition fits (compressedBytes : bytes) (targetSize : jsnum) : bool :=
  js_le (Num (Z.of_nat (length compressedBytes))) targetSize.

(** [for (let i = 0; i < 5; i++) { ... }] with [remaining = 5 - i]
    iterations to go.  [compressedBytes] is [undefined] ([None]) until the
    first attempt has returned. *)
Fixpoint target_loop (pdfBytes : bytes) (targetSize : jsnum)
    (remaining : nat) (quality : Z) (resizeRatio : float)
    (compressedBytes : option bytes) : Run (option bytes) :=
  match remaining with
  | O => run_ret compressedBytes
  | S remaining' =>
      let* b := attempt pdfBytes quality resizeRatio in
      if fits b targetSize
      then run_ret (Some b)
      else target_loop pdfBytes targetSize remaining'
             (next_quality quality) (next_resizeRatio resizeRatio) (Some b)
  end.

(** [options.targetSize ? parseInt(options.targetSize) * 1024 : null] *)
Definition targetSize_of (options : Options) : option jsnum :=
  match opt_targetSize options with
  | Some s =>
      if truthy_string s then Some (js_mul (parseInt s) (Num 1024))
      else None
  | None => None
  end.

(** The target of the loop: [targetSize] when [if (targetSize)] takes the
    loop branch, that is when it is a number other than [0] and [NaN]. *)
Definition loop_target (options : Options) : option jsnum :=
  match targetSize_of options with
  | Some target => if truthy_num target then Some target else None
  | None => None
  end.

(** The quality-tier table. *)
Definition tier_settings (quality : option jsstring) : Z * float :=
  if bool_decide (quality = Some (js "low")) then (30%Z, 0.5%float)
  else if bool_decide (quality = Some (js "high")) then (80%Z, 1.0%float)
  else (60%Z, 0.75%float).

(** [compressPDF], from the bytes read from [file.path] to the bytes
    written to [outputPath].  Reading [.length] of an [undefined]
    [compressedBytes] would be a TypeError.  The returned record only adds
    names and sizes computed from these bytes. *)
Definition compressPDF (pdfBytes : bytes) (options : Options) : Run bytes :=
  let targetSize := targetSize_of options in
  let '(quality, resizeRatio) := tier_settings (opt_quality options) in
  match targetSize with
  | Some target =>
      if truthy_num target then
        let* compressedBytes := target_loop pdfBytes target 5 70 0.8 None in
        match compressedBytes with
        | Some b => run_ret b
        | None => run_throw
        end
      else attempt pdfBytes quality resizeRatio
  | None => attempt pdfBytes quality resizeRatio
  end.

(** The calls made and the outcome of one request. *)
Definition calls_of (pdfBytes : bytes) (options : Options) : list call :=
  fst (compressPDF pdfBytes options []).

Definition outcome_of (pdfBytes : bytes) (options : Options)
    : completion bytes :=
  snd (compressPDF pdfBytes options []).

(** The new stream that takes an object's place, if any: the object is an
    eligible image and its re-encoding went through. *)
Definition reencoded (q : Z) (r : float) (obj : PDFObject)
    : option PDFObject :=
  match obj with
  | PDFRawStream dict contents =>
      if eligible obj then
        match reencode_image q r dict contents with
        | Normal newStream => Some newStream
        | Throw => None
        end
      else None
  | PDFOtherObject _ => None
  end.

(** [performCompression] on the arguments of a recorded call. *)
Definition run_call (pdfBytes : bytes) (c : call) : completion bytes :=
  performCompression pdfBytes (fst c) (snd c).

End WithCollaborators.

End Compress.

(** ** A sample document and codec *)

Module Sample.
Import JS Compress.

Definition jpeg_dict (w h : float) : gmap string PDFValue :=
  <["Subtype" := PDFName "Image"]>
  (<["Filter" := PDFName "DCTDecode"]>
  (<["Width" := PDFNumber w]>
  (<["Height" := PDFNumber h]> ∅))).

Definition corrupt : bytes := [Byte.x00].
Definition photo : bytes := [Byte.xff; Byte.xd8].

Definition damaged : PDFObject := PDFRawStream (jpeg_dict 640 480) corrupt.
Definition square : PDFObject := PDFRawStream (jpeg_dict 1000 1000) photo.

(** Two JPEG images and a page tree. *)
Definition table : PDFContext :=
  <[(1%N, 0%N) := damaged]>
  (<[(2%N, 0%N) := square]>
  (<[(3%N, 0%N) := PDFOtherObject 0]> ∅)).

Definition stream_bytes (obj : PDFObject) : bytes :=
  match obj with
  | PDFRawStream _ contents => contents
  | PDFOtherObject _ => []
  end.

(** The codec fails on the damaged stream and otherwise returns [200 * q]
    bytes; saving concatenates the stream contents. *)
#[export] Instance lib : Collaborators := {|
  PDFDocument_load := fun _ => Normal table;
  sharp_resize_jpeg := fun contents _ _ q =>
    match contents with
    | [Byte.x00] => Throw
    | _ => Normal (repeat Byte.x01 (Z.to_nat (200 * q)))
    end;
  PDFDocument_save := fun ctx =>
    Normal (flat_map (fun e => stream_bytes (snd e)) (map_to_list ctx))
|}.

Definition low_tier : Options :=
  {| opt_quality := Some (js "low"); opt_targetSize := None |}.

(** A target of 1 KB, out of reach, and one of 6 KB, met at the fourth
    attempt. *)
Definition target_1k : Options :=
  {| opt_quality := Some (js "high"); opt_targetSize := Some (js "1") |}.

Definition target_6k : Options :=
  {| opt_quality := Some (js "low"); opt_targetSize := Some (js "6") |}.

(** A target of half a kilobyte: [parseInt] reads it as 0. *)
Definition target_half : Options :=
  {| opt_quality := Some (js "low"); opt_targetSize := Some (js "0.5") |}.

(** The bytes of a normal completion. *)
Definition bytes_of (o : completion bytes) : bytes :=
  match o with
  | Normal b => b
  | Throw => []
  end.

End Sample.

(** ** Vocabulary for the built-ins *)

Module JSMore.
Import JS.

(** A code unit that ends a run of digits in every radix: no digit, no
    letter. *)
Definition stops (c : N) : Prop := (c < 48 \/ 122 < c)%N.

(** [parseInt] behind the white space and the sign. *)
Definition read_digits (sign : Z) (s2 : jsstring) : jsnum :=
  let '(radix, s3) :=
    match s2 with
    | c0 :: x :: t =>
        if ((c0 =? 48) && ((x =? 120) || (x =? 88)))%N then (16%N, t)
        else (10%N, s2)
    | _ => (10%N, s2)
    end in
  match take_digits radix s3 with
  | [] => NaN
  | ds => Num (sign * digits_value radix ds)
  end.

End JSMore.

(** ** rotatePDF *)

Module Rotate.
Import JS Split.

(** [page.setRotation(degrees(a))], as far as the service depends on it:
    the angle that [page.getRotation().angle] reports afterwards, or a
    throw (pdf-lib refuses some angles).  Angles are JavaScript numbers,
    binary64. *)
Class PageLibrary : Type := {
  setRotation : float -> completion float
}.

(** [options.degrees || 90], for the number the caller passes: [0], [-0]
    and [NaN] are falsy. *)
Definition rotationDegrees (degrees : option float) : float :=
  match degrees with
  | Some d =>
      if PrimFloat.eqb d 0 || PrimFloat.is_nan d then 90%float else d
  | None => 90%float
  end.

(** The pages of the file that [pdf.save()] writes: pdf-lib adds an empty
    page, at angle 0, to a document that has no page. *)
Definition saved_pages (pages : list float) : list float :=
  match pages with
  | [] => [0%float]
  | _ :: _ => pages
  end.

Section WithLibrary.
Context {lib : PageLibrary}.

(** [pages.forEach(page => { ... })] of the first branch, on the angles
    of the pages.  The sum is a binary64 addition.  A throw leaves the
    document unsaved. *)
Fixpoint rotate_all (rotationDegrees : float) (pages : list float)
    : completion (list float) :=
  match pages with
  | [] => Normal []
  | currentRotation :: rest =>
      match setRotation (PrimFloat.add currentRotation rotationDegrees) with
      | Normal angle =>
          match rotate_all rotationDegrees rest with
          | Normal rest' => Normal (angle :: rest')
          | Throw => Throw
          end
      | Throw => Throw
      end
  end.

(** The callback of [pageIndices.forEach(index => { ... })]. *)
Definition rotate_index (rotationDegrees : float) (pages : list float)
    (index : jsnum) : completion (list float) :=
  if js_ge index (Num 0) && js_lt index (Num (Z.of_nat (length pages)))
  then
    match index with
    | Num i =>
        match pages !! Z.to_nat i with
        | Some currentRotation =>
            match setRotation
                    (PrimFloat.add currentRotation rotationDegrees) with
            | Normal angle => Normal (<[Z.to_nat i := angle]> pages)
            | Throw => Throw
            end
        | None => Normal pages
        end
    | NaN => Normal pages
    end
  else Normal pages.

Fixpoint rotate_indices (rotationDegrees : float)
    (pageIndices : list jsnum) (pages : list float)
    : completion (list float) :=
  match pageIndices with
  | [] => Normal pages
  | index :: rest =>
      match rotate_index rotationDegrees pages index with
      | Normal pages' => rotate_indices rotationDegrees rest pages'
      | Throw => Throw
      end
  end.

(** The pages after the branch on [options.pages], before the save: the
    first branch is taken when [options.pages === 'all' ||
    !options.pages]. *)
Definition rotate_pages (angles : list float) (rotationDegrees : float)
    (pages : option jsstring) : completion (list float) :=
  match pages with
  | Some s =>
      if bool_decide (s = js "all") || negb (truthy_string s)
      then rotate_all rotationDegrees angles
      else rotate_indices rotationDegrees
             (map to_index (split comma s)) angles
  | None => rotate_all rotationDegrees angles
  end.

(** [rotatePDF], from the angles of the loaded pages to the angles of the
    pages of the file that [pdf.save()] writes.  [degrees] is
    [options.degrees], a number or absent; [pages] is [options.pages], a
    string or absent. *)
Definition rotatePDF (angles : list float) (degrees : option float)
    (pages : option jsstring) : completion (list float) :=
  let rotationDegrees := rotationDegrees degrees in
  match rotate_pages angles rotationDegrees pages with
  | Normal pages' => Normal (saved_pages pages')
  | Throw => Throw
  end.

End WithLibrary.



(** The page at [index] exists. *)
Definition in_document (len : nat) (index : jsnum) : bool :=
  js_ge index (Num 0) && js_lt index (Num (Z.of_nat len)).


(** [value % 90 === 0] on a binary64, computed exactly from the mantissa
    and the exponent: the zeros are multiples of 90, [NaN] and the
    infinities are not. *)
Definition multiple_of_90 (x : float) : bool :=
  match Prim2SF x with
  | S754_zero _ => true
  | S754_finite _ m e =>
      if (0 <=? e)%Z then ((Z.pos m * 2 ^ e) mod 90 =? 0)%Z
      else (Z.pos m mod (90 * 2 ^ (- e)) =? 0)%Z
  | _ => false
  end.

(** A library that accepts exactly the multiples of 90, and stores the
    angle it is given. *)
Definition right_angles : PageLibrary :=
  {| setRotation := fun a => if multiple_of_90 a then Normal a else Throw |}.

End Rotate.

(** ** splitPDF with [mode === 'all'] *)

Module SplitAll.
Import JS.

(** The decimal digits of a natural number, as a template literal renders
    it (for numbers below [10^21]). *)
Definition decimal (n : N) : jsstring :=
  js (DecimalString.NilZero.string_of_uint (N.to_uint n)).

(** [`${baseName}_page_${i + 1}.pdf`] *)
Definition entry_name (baseName : jsstring) (i : Z) : jsstring :=
  baseName ++ js "_page_" ++ decimal (Z.to_N (i + 1)) ++ js ".pdf".

(** [for (let i = 0; i < totalPages; i++) { ... archive.append(...) }],
    run for at most [fuel] iterations: each entry of the archive is a
    name and the index of the one page copied into it ([copyPages],
    [save] and [archive.append] are taken to return). *)
Fixpoint archive_loop (fuel : nat) (baseName : jsstring) (i totalPages : Z)
    (archive : list (jsstring * Z)) : list (jsstring * Z) :=
  match fuel with
  | O => archive
  | S fuel' =>
      if (i <? totalPages)%Z then
        archive_loop fuel' baseName (i + 1) totalPages
          (archive ++ [(entry_name baseName i, i)])
      else archive
  end.

(** The entries of the zip archive; the loop runs [totalPages] times. *)
Definition splitPDF_all (baseName : jsstring) (totalPages : Z)
    : list (jsstring * Z) :=
  archive_loop (Z.to_nat totalPages) baseName 0 totalPages [].

End SplitAll.

(** ** addWatermark: the colour *)

Module Watermark.
Import JS.

(** [parseInt(s, radix)] for a radix from 2 to 36 (ECMA-262, 19.2.5): as
    [parseInt], but the digits are those of the radix, and the [0x] prefix
    is only skipped for radix 16. *)
Definition parseInt_radix (s : jsstring) (radix : N) : jsnum :=
  if ((radix <? 2) || (36 <? radix))%N then NaN
  else
    let s1 := trim_start s in
    let '(sign, s2) :=
      match s1 with
      | c :: t => if (c =? hyphen)%N then ((-1)%Z, t)
                  else if (c =? plus)%N then (1%Z, t)
                  else (1%Z, s1)
      | [] => (1%Z, s1)
      end in
    let s3 :=
      match s2 with
      | c0 :: x :: t =>
          if ((radix =? 16) && (c0 =? 48) && ((x =? 120) || (x =? 88)))%N
          then t else s2
      | _ => s2
      end in
    match take_digits radix s3 with
    | [] => NaN
    | ds => Num (sign * digits_value radix ds)
    end.

(** A number as a binary64, correctly rounded when below [2^63] in
    absolute value and exact below [2^53]. *)
Definition to_float (x : jsnum) : float :=
  match x with
  | NaN => PrimFloat.nan
  | Num z =>
      if (z <? 0)%Z
      then PrimFloat.opp (PrimFloat.of_uint63 (Uint63.of_Z (- z)))
      else PrimFloat.of_uint63 (Uint63.of_Z z)
  end.

(** The class [[a-f\d]] under the flag [i]: an ASCII digit or a letter
    from [a] to [f] in either case. *)
Definition is_hex (c : N) : bool :=
  ((48 <=? c) && (c <=? 57) || (97 <=? c) && (c <=? 102)
   || (65 <=? c) && (c <=? 70))%N.

(** [/^#?([a-f\d]{2})([a-f\d]{2})([a-f\d]{2})$/i.exec(hex)]: the three
    groups, or [null].  The optional [#] is taken when it is there: a
    match that leaves it would need it as a hex digit. *)
Definition hex_exec (hex : jsstring) : option (jsstring * jsstring * jsstring) :=
  let body :=
    match hex with
    | c :: t => if (c =? 35)%N then t else hex
    | [] => hex
    end in
  match body with
  | [c1; c2; c3; c4; c5; c6] =>
      if forallb is_hex body then Some ([c1; c2], [c3; c4], [c5; c6])
      else None
  | _ => None
  end.

Record RGB : Type := { r : float; g : float; b : float }.

(** [parseInt(group, 16) / 255] *)
Definition channel (group : jsstring) : float :=
  PrimFloat.div (to_float (parseInt_radix group 16)) 255.

(** [hexToRgb] *)
Definition hexToRgb (hex : jsstring) : RGB :=
  match hex_exec hex with
  | Some (g1, g2, g3) =>
      {| r := channel g1; g := channel g2; b := channel g3 |}
  | None => {| r := 0.5; g := 0.5; b := 0.5 |}
  end.

(** The upper-case form of a letter from [a] to [f]. *)
Definition upper_hex (c : N) : N :=
  if ((97 <=? c) && (c <=? 102))%N then (c - 32)%N else c.

(** A channel is within the range that [rgb] accepts. *)
Definition unit_interval (x : float) : bool :=
  PrimFloat.leb 0 x && PrimFloat.leb x 1.


(** The two steps of the match: the optional [#], then the six digits. *)
Definition strip_hash (hex : jsstring) : jsstring :=
  match hex with
  | c :: t => if (c =? 35)%N then t else hex
  | [] => hex
  end.

Definition groups (body : jsstring)
    : option (jsstring * jsstring * jsstring) :=
  match body with
  | [c1; c2; c3; c4; c5; c6] =>
      if forallb is_hex body then Some ([c1; c2], [c3; c4], [c5; c6])
      else None
  | _ => None
  end.

(** The code units up to [f]: every hex digit is one of them. *)
Definition low_units : list N := map N.of_nat (seq 0 103).

(** A check of all pairs of code units up to [f]. *)
Definition all_pairs (check : N -> N -> bool) : bool :=
  forallb (fun c1 => forallb (fun c2 =>
     implb (is_hex c1 && is_hex c2) (check c1 c2)) low_units) low_units.

(** Equality of two numbers, as a test. *)
Definition jsnum_eqb (x y : jsnum) : bool :=
  match x, y with
  | NaN, NaN => true
  | Num a, Num b => (a =? b)%Z
  | _, _ => false
  end.

End Watermark.

(** ** protectPDF and unlockPDF *)

Module Protect.
Import JS Compress.

(** The outcome of a call that may throw an [Error] with a message. *)
Inductive result (A : Type) : Type :=
| Ok (a : A)
| Error (message : jsstring).
Arguments Ok {A} a.
Arguments Error {A} message.

(** [String.prototype.startsWith] *)
Fixpoint starts_with (s prefix : jsstring) : bool :=
  match prefix, s with
  | [], _ => true
  | c :: prefix', d :: s' => (c =? d)%N && starts_with s' prefix'
  | _ :: _, [] => false
  end.

(** [String.prototype.includes] *)
Fixpoint includes_string (s needle : jsstring) : bool :=
  starts_with s needle
  || match s with
     | [] => false
     | _ :: s' => includes_string s' needle
     end.

(** The file system, the library and the helper [saveOutput], each a
    call that may throw:
    - [readFileSync]: [fs.readFileSync(file.path)];
    - [load_ignoreEncryption]: [PDFDocument.load(pdfBytes,
      {ignoreEncryption: true})];
    - [load_password]: [PDFDocument.load(pdfBytes, {password})];
    - [isEncrypted]: the property [pdf.isEncrypted];
    - [save_protected]: [pdf.save({userPassword, ownerPassword,
      permissions})] with both passwords the given one;
    - [save]: [pdf.save()];
    - [saveOutput bytes originalname suffix]: the file written and its
      handle. *)
Class Library : Type := {
  Doc : Type;
  Handle : Type;
  readFileSync : jsstring -> result bytes;
  load_ignoreEncryption : bytes -> result Doc;
  load_password : bytes -> jsstring -> result Doc;
  isEncrypted : Doc -> bool;
  save_protected : Doc -> jsstring -> result bytes;
  save : Doc -> result bytes;
  saveOutput : bytes -> jsstring -> jsstring -> result Handle
}.

Definition password_required : jsstring := js "Password is required".

Definition already_protected : jsstring :=
  js "This PDF is already password protected. Please unlock it first.".

Definition incorrect_password : jsstring :=
  js "Incorrect password. Please check your password and try again.".

Definition needs_password : jsstring :=
  js "This PDF is password protected. Please enter the password.".

Section WithLibrary.
Context {lib : Library}.

(** The [try] block of [protectPDF]. *)
Definition protect_try (pdfBytes : bytes) (originalname password : jsstring)
    : result Handle :=
  match load_ignoreEncryption pdfBytes with
  | Ok pdf =>
      if isEncrypted pdf then Error already_protected
      else
        match save_protected pdf password with
        | Ok protectedBytes =>
            saveOutput protectedBytes originalname (js "_protected")
        | Error m => Error m
        end
  | Error m => Error m
  end.

(** The [catch] block of [protectPDF], on the message of the error
    caught. *)
Definition protect_catch (message : jsstring) : jsstring :=
  if includes_string message (js "already password protected")
  then message
  else js "Failed to process PDF: " ++ message.

(** [protectPDF].  [path] is [file.path], [originalname] is
    [file.originalname] and [password] is [options.password].  The
    password is checked first; the file is read before the [try], so an
    error of [fs.readFileSync] does not reach the [catch]. *)
Definition protectPDF (path originalname : jsstring)
    (password : option jsstring) : result Handle :=
  match password with
  | Some pw =>
      if truthy_string pw then
        match readFileSync path with
        | Ok pdfBytes =>
            match protect_try pdfBytes originalname pw with
            | Ok handle => Ok handle
            | Error message => Error (protect_catch message)
            end
        | Error m => Error m
        end
      else Error password_required
  | None => Error password_required
  end.

(** [password || ''] *)
Definition password_or_empty (password : option jsstring) : jsstring :=
  match password with
  | Some pw => pw
  | None => []
  end.

(** The [try] block of [unlockPDF]. *)
Definition unlock_try (pdfBytes : bytes) (originalname : jsstring)
    (password : option jsstring) : result Handle :=
  match load_password pdfBytes (password_or_empty password) with
  | Ok pdf =>
      match save pdf with
      | Ok unlockedBytes =>
          saveOutput unlockedBytes originalname (js "_unlocked")
      | Error m => Error m
      end
  | Error m => Error m
  end.

(** The [catch] block of [unlockPDF], on the message of the error
    caught. *)
Definition unlock_catch (message : jsstring) : jsstring :=
  if includes_string message (js "Incorrect password")
  then incorrect_password
  else if includes_string message (js "Password is required")
  then needs_password
  else js "Failed to unlock PDF: " ++ message.

(** [unlockPDF].  The file is read before the [try], so an error of
    [fs.readFileSync] does not reach the [catch]. *)
Definition unlockPDF (path originalname : jsstring)
    (password : option jsstring) : result Handle :=
  match readFileSync path with
  | Ok pdfBytes =>
      match unlock_try pdfBytes originalname password with
      | Ok handle => Ok handle
      | Error message => Error (unlock_catch message)
      end
  | Error m => Error m
  end.

End WithLibrary.

(** A file system of three files and a library over documents that are a
    flag (encrypted or not), for which the password is [secret]; a file
    without bytes does not parse. *)
Definition flag_library : Library :=
  {| Doc := bool;
     Handle := jsstring;
     readFileSync := fun path =>
       if bool_decide (path = js "locked.pdf") then Ok [Byte.x01]
       else if bool_decide (path = js "plain.pdf") then Ok [Byte.x00]
       else if bool_decide (path = js "empty.pdf") then Ok []
       else Error (js "ENOENT: no such file or directory");
     load_ignoreEncryption := fun pdfBytes =>
       match pdfBytes with
       | [] => Error (js "No PDF header found")
       | byte :: _ => Ok (Byte.eqb byte Byte.x01)
       end;
     load_password := fun pdfBytes password =>
       match pdfBytes with
       | [] => Error (js "No PDF header found")
       | byte :: _ =>
           if Byte.eqb byte Byte.x01
           then if bool_decide (password = js "secret") then Ok false
                else Error (js "Incorrect password")
           else Ok false
       end;
     isEncrypted := fun pdf => pdf;
     save_protected := fun _ _ => Ok [Byte.x01];
     save := fun _ => Ok [Byte.x00];
     saveOutput := fun _ originalname suffix => Ok (originalname ++ suffix)
  |}.

End Protect.

(** ** The compress route *)

Module Routes.
Import JS Compress.

(** [field || fallback] for a form field, absent or a string. *)
Definition or_default (field : option jsstring) (fallback : jsstring)
    : jsstring :=
  match field with
  | Some s => if truthy_string s then s else fallback
  | None => fallback
  end.

(** The call of the service in [router.post('/compress', ...)], once a
    file has been uploaded: [pdfService.compressPDF(req.file,
    { quality: quality || 'medium' })]. *)
Definition compress_route {lib : Collaborators} (pdfBytes : bytes)
    (quality : option jsstring) : Run bytes :=
  compressPDF pdfBytes
    {| opt_quality := Some (or_default quality (js "medium"));
       opt_targetSize := None |}.

End Routes.

(** ** The browser's FileUploader *)

Module Uploader.
Import JS Protect.

Record File : Type := {
  file_name : jsstring;
  file_type : jsstring
}.

(** The fields of a [FileUploader] that its list operations use.
    [maxFiles] is an integer. *)
Record FileUploader : Type := {
  files : list File;
  maxFiles : Z;
  acceptedTypes : list jsstring
}.

(** The constructor: [options.maxFiles || 20] and
    [options.acceptedTypes || ['application/pdf']] (an array, even an
    empty one, is truthy). *)
Definition new_uploader (opt_maxFiles : option jsnum)
    (opt_acceptedTypes : option (list jsstring)) : FileUploader :=
  {| files := [];
     maxFiles := match opt_maxFiles with
                 | Some (Num z) => if (z =? 0)%Z then 20%Z else z
                 | Some NaN => 20%Z
                 | None => 20%Z
                 end;
     acceptedTypes := match opt_acceptedTypes with
                      | Some types => types
                      | None => [js "application/pdf"]
                      end |}.

Definition star : N := 42.

(** [type.replace('*', '')]: the first [*] is removed. *)
Fixpoint remove_first (c : N) (s : jsstring) : jsstring :=
  match s with
  | [] => []
  | d :: s' => if (d =? c)%N then s' else d :: remove_first c s'
  end.

(** The callback of [acceptedTypes.some(...)]. *)
Definition type_matches (fileType type : jsstring) : bool :=
  if includes type star then starts_with fileType (remove_first star type)
  else bool_decide (fileType = type).

(** The callback of [Array.from(fileList).filter(...)]. *)
Definition accepted (acceptedTypes : list jsstring) (file : File) : bool :=
  if (0 <? Z.of_nat (length acceptedTypes))%Z
     && negb (existsb (type_matches (file_type file)) acceptedTypes)
  then false
  else true.

(** [array.slice(0, end)] for an integer [end]: a negative [end] counts
    from the end of the array. *)
Definition slice_to {A} (l : list A) (end_ : Z) : list A :=
  let len := Z.of_nat (length l) in
  let final := if (end_ <? 0)%Z then Z.max (len + end_) 0
               else Z.min end_ len in
  take (Z.to_nat final) l.

(** [array.splice(index, 1)] for an integer [index], as the array it
    leaves: a negative [index] counts from the end, and nothing is removed
    at or past the end. *)
Definition splice_one {A} (l : list A) (index : Z) : list A :=
  let len := Z.of_nat (length l) in
  let start := if (index <? 0)%Z then Z.max (len + index) 0
               else Z.min index len in
  delete (Z.to_nat start) l.

(** [addFiles(fileList)] *)
Definition addFiles (u : FileUploader) (fileList : list File)
    : FileUploader :=
  let newFiles := filter (fun f => accepted (acceptedTypes u) f = true)
                    fileList in
  let remainingSlots := (maxFiles u - Z.of_nat (length (files u)))%Z in
  let filesToAdd := slice_to newFiles remainingSlots in
  {| files := files u ++ filesToAdd;
     maxFiles := maxFiles u;
     acceptedTypes := acceptedTypes u |}.

(** [removeFile(index)] *)
Definition removeFile (u : FileUploader) (index : Z) : FileUploader :=
  {| files := splice_one (files u) index;
     maxFiles := maxFiles u;
     acceptedTypes := acceptedTypes u |}.

(** [clearFiles()] *)
Definition clearFiles (u : FileUploader) : FileUploader :=
  {| files := [];
     maxFiles := maxFiles u;
     acceptedTypes := acceptedTypes u |}.

(** A use of the uploader: a sequence of calls of its methods. *)
Inductive call : Type :=
| AddFiles (fileList : list File)
| RemoveFile (index : Z)
| ClearFiles.

Definition do_call (u : FileUploader) (c : call) : FileUploader :=
  match c with
  | AddFiles fileList => addFiles u fileList
  | RemoveFile index => removeFile u index
  | ClearFiles => clearFiles u
  end.

Definition do_calls (u : FileUploader) (calls : list call) : FileUploader :=
  fold_left do_call calls u.

End Uploader.

(** * Properties *)

(** ** Strings *)

Module JSFacts.
Import JS.

Lemma split_nonempty sep s : split sep s <> [].
Proof.
  destruct s as [|c s]; simpl; [discriminate|].
  destruct (c =? sep)%N; [discriminate|].
  destruct (split sep s); discriminate.
Qed.

(** Splitting distributes over a separator between two strings. *)
Lemma split_app sep a b :
  split sep (a ++ sep :: b) = split sep a ++ split sep b.
Proof.
  induction a as [|c a IH]; simpl.
  - rewrite N.eqb_refl. reflexivity.
  - destruct (c =? sep)%N.
    + rewrite IH. reflexivity.
    + rewrite IH. pose proof (split_nonempty sep a) as Hne.
      destruct (split sep a); [contradiction|reflexivity].
Qed.

(** A string without the separator is a single piece. *)
Lemma split_none sep s : includes s sep = false -> split sep s = [s].
Proof.
  unfold includes. induction s as [|c s IH]; simpl; [reflexivity|].
  intros H. apply orb_false_iff in H as [Hc Hs].
  rewrite N.eqb_sym, Hc, (IH Hs). reflexivity.
Qed.

Lemma includes_app s t c :
  includes (s ++ t) c = includes s c || includes t c.
Proof. unfold includes. apply existsb_app. Qed.

Lemma includes_cons_eq s c : includes (c :: s) c = true.
Proof. unfold includes. simpl. rewrite N.eqb_refl. reflexivity. Qed.

(** The built-ins on a few inputs. *)
Example split_pieces :
  split comma (js "a,,b,") = [js "a"; []; js "b"; []]
  /\ split comma [] = [[]].
Proof. split; reflexivity. Qed.

Example parseInt_values :
  parseInt (js "12abc") = Num 12
  /\ parseInt (js "abc") = NaN
  /\ parseInt [] = NaN
  /\ parseInt (js " 0x1F") = Num 31
  /\ parseInt (js "-7") = Num (-7)
  /\ parseInt (js "+4") = Num 4.
Proof. repeat split; reflexivity. Qed.

Example Math_round_values :
  Math_round 2.5 = 3%float
  /\ Math_round (-2.5) = (-2)%float
  /\ Math_round 1.4 = 1%float
  /\ Math_round 0.49999999999999994 = 0%float
  /\ Math_round (PrimFloat.mul 1000 0.5) = 500%float.
Proof. repeat split; vm_compute; reflexivity. Qed.

End JSFacts.

(** ** The page-range parser *)

Module SplitFacts.
Import JS Split JSFacts.
Local Open Scope Z_scope.

Lemma elem_of_clipped start end_ totalPages i :
  i ∈ clipped start end_ totalPages <->
  start <= i <= end_ /\ 0 <= i < totalPages.
Proof. unfold clipped. rewrite elem_of_seqZ. lia. Qed.

Lemma seqZ_sorted m n : StronglySorted Z.lt (seqZ m n).
Proof.
  destruct (Z_le_gt_dec n 0) as [Hn|Hn].
  { rewrite seqZ_nil by lia. constructor. }
  rewrite <- (Z2Nat.id n) by lia.
  generalize (Z.to_nat n) as k. clear n Hn. intros k. revert m.
  induction k as [|k IH]; intros m.
  - rewrite seqZ_nil by lia. constructor.
  - rewrite seqZ_cons by lia.
    replace (Z.pred (Z.of_nat (S k))) with (Z.of_nat k) by lia.
    constructor; [apply IH|].
    apply Forall_forall. intros j Hj. apply elem_of_seqZ in Hj. lia.
Qed.

Lemma clipped_sorted start end_ totalPages :
  StronglySorted Z.lt (clipped start end_ totalPages).
Proof. apply seqZ_sorted. Qed.

(** With enough fuel the loop between two numbers appends the clipped
    range. *)
Lemma for_range_num fuel s e totalPages acc :
  (Z.to_nat (totalPages - s) <= fuel)%nat ->
  for_range fuel (Num s) (Num e) totalPages acc
  = acc ++ map Num (clipped s e totalPages).
Proof.
  unfold clipped. revert s acc.
  induction fuel as [|fuel IH]; intros s acc Hfuel; simpl.
  - rewrite seqZ_nil by lia. simpl. rewrite app_nil_r. reflexivity.
  - unfold loop_cond, js_ge. simpl.
    destruct (Z.leb_spec s e) as [Hse|Hse]; simpl.
    2:{ rewrite seqZ_nil by lia. simpl. rewrite app_nil_r. reflexivity. }
    destruct (Z.ltb_spec s totalPages) as [Hst|Hst].
    2:{ rewrite seqZ_nil by lia. simpl. rewrite app_nil_r. reflexivity. }
    rewrite IH by lia.
    destruct (Z.leb_spec 0 s) as [H0|H0].
    + rewrite (seqZ_cons (Z.max 0 s)) by lia. simpl.
      rewrite <- app_assoc. simpl.
      replace (Z.max 0 s) with s by lia.
      replace (Z.max 0 (s + 1)) with (Z.succ s) by lia.
      do 4 f_equal. lia.
    + replace (Z.max 0 (s + 1)) with (Z.max 0 s) by lia. reflexivity.
Qed.

Lemma for_range_NaN_l fuel e totalPages acc :
  for_range fuel NaN e totalPages acc = acc.
Proof. destruct fuel; reflexivity. Qed.

Lemma for_range_NaN_r fuel i totalPages acc :
  for_range fuel i NaN totalPages acc = acc.
Proof. destruct fuel, i; reflexivity. Qed.

(** The loop's own equation: the fuel of [range_loop] never runs out
    while the loop condition holds. *)
Lemma range_loop_unfold i e totalPages acc :
  range_loop i e totalPages acc
  = if loop_cond i e totalPages
    then range_loop (js_add i (Num 1)) e totalPages
           (if js_ge i (Num 0) then acc ++ [i] else acc)
    else acc.
Proof.
  unfold range_loop.
  destruct i as [|s]; [reflexivity|].
  destruct e as [|e].
  { rewrite for_range_NaN_r. reflexivity. }
  simpl iterations_bound.
  destruct (Z.ltb_spec s totalPages) as [Hlt|Hge].
  - replace (Z.to_nat (totalPages - s))
      with (S (Z.to_nat (totalPages - (s + 1)))) by lia.
    reflexivity.
  - replace (Z.to_nat (totalPages - s)) with O by lia.
    unfold loop_cond. simpl.
    destruct (Z.ltb_spec s totalPages); [lia|].
    rewrite andb_false_r. reflexivity.
Qed.

(** What a range with bounds [start] and [end_] appends. *)
Lemma range_loop_spec start end_ totalPages acc :
  range_loop start end_ totalPages acc
  = acc ++ match start, end_ with
           | Num s, Num e => map Num (clipped s e totalPages)
           | _, _ => []
           end.
Proof.
  unfold range_loop. destruct start as [|s].
  { rewrite for_range_NaN_l, app_nil_r. reflexivity. }
  destruct end_ as [|e].
  { rewrite for_range_NaN_r, app_nil_r. reflexivity. }
  apply for_range_num. simpl. lia.
Qed.

(** A token only appends. *)
Lemma push_part_app totalPages acc part :
  push_part totalPages acc part = acc ++ push_part totalPages [] part.
Proof.
  unfold push_part. destruct (includes part hyphen).
  - destruct (map to_index (split hyphen part)) as [|start [|end_ rest]];
      try (rewrite app_nil_r; reflexivity).
    rewrite (range_loop_spec _ _ _ acc), (range_loop_spec _ _ _ []).
    reflexivity.
  - destruct (_ && _); [reflexivity|rewrite app_nil_r; reflexivity].
Qed.

Lemma fold_push_part totalPages parts acc :
  fold_left (push_part totalPages) parts acc
  = acc ++ concat (map (push_part totalPages []) parts).
Proof.
  revert acc. induction parts as [|part parts IH]; intros acc; simpl.
  - rewrite app_nil_r. reflexivity.
  - rewrite IH, (push_part_app _ acc), <- app_assoc. reflexivity.
Qed.

(** A token whose parse fails appends nothing. *)
Lemma push_part_fails totalPages acc part :
  parse_fails part = true -> push_part totalPages acc part = acc.
Proof.
  unfold parse_fails, push_part. destruct (includes part hyphen).
  - destruct (map to_index (split hyphen part)) as [|start [|end_ rest]];
      try reflexivity.
    rewrite range_loop_spec.
    destruct start, end_; try discriminate; intros _; apply app_nil_r.
  - destruct (to_index part); [reflexivity|discriminate].
Qed.

(** Every index a token appends is a number within the document. *)
Lemma push_part_valid totalPages part :
  Forall (valid_index totalPages) (push_part totalPages [] part).
Proof.
  unfold push_part. destruct (includes part hyphen).
  - destruct (map to_index (split hyphen part)) as [|start [|end_ rest]];
      try constructor.
    rewrite range_loop_spec. simpl.
    destruct start as [|s], end_ as [|e]; try constructor.
    apply Forall_forall. intros x Hx.
    apply list_elem_of_fmap in Hx as (i & -> & Hi).
    apply elem_of_clipped in Hi. exists i. split; [reflexivity|lia].
  - destruct (to_index part) as [|z]; simpl; [constructor|].
    destruct (Z.leb_spec 0 z), (Z.ltb_spec z totalPages); simpl;
      constructor; try constructor.
    exists z. split; [reflexivity|lia].
Qed.

Lemma pageIndices_valid c s totalPages :
  Forall (valid_index totalPages)
    (splitPDF_pageIndices (Some (c :: s)) totalPages).
Proof.
  unfold splitPDF_pageIndices. simpl truthy_string. cbv iota.
  rewrite fold_push_part. simpl.
  apply Forall_concat, Forall_forall. intros l Hl.
  apply list_elem_of_fmap in Hl as (part & -> & _).
  apply push_part_valid.
Qed.

(** A ten-page document: the token ["11"] is out of range and dropped. *)
Example ten_pages :
  splitPDF_pageIndices (Some (js "2,4-6,11")) 10
  = [Num 1; Num 3; Num 4; Num 5].
Proof. reflexivity. Qed.

End SplitFacts.

(** ** Claims on the page-range parser *)

Module SplitClaims.
Import JS Split JSFacts SplitFacts.
Local Open Scope Z_scope.

(** C1, as the code has it (the claim as stated fails): an expression with a token whose
    numeric parse fails is not rejected.  The parser completes normally,
    the token contributes nothing, the result is what the other tokens
    give, and every element of it is a number within the document, never
    [NaN]. *)
Theorem unparsable_token_dropped (s : jsstring) (pre post : list jsstring)
    (bad : jsstring) (totalPages : Z) :
  truthy_string s = true ->
  split comma s = pre ++ bad :: post ->
  parse_fails bad = true ->
  splitPDF_parse (Some s) totalPages
  = Normal (fold_left (push_part totalPages) (pre ++ post) [])
  /\ Forall (valid_index totalPages)
       (fold_left (push_part totalPages) (pre ++ post) [])
  /\ Forall (fun x => x <> NaN) (splitPDF_pageIndices (Some s) totalPages).
Proof.
  intros Hs Hsplit Hbad.
  assert (Hdrop : splitPDF_pageIndices (Some s) totalPages
                  = fold_left (push_part totalPages) (pre ++ post) []).
  { unfold splitPDF_pageIndices. rewrite Hs, Hsplit.
    rewrite !fold_left_app. simpl.
    rewrite (push_part_fails _ _ _ Hbad). reflexivity. }
  assert (Hvalid : Forall (valid_index totalPages)
                     (splitPDF_pageIndices (Some s) totalPages)).
  { destruct s as [|c s]; [discriminate|]. apply pageIndices_valid. }
  split; [|split].
  - unfold splitPDF_parse. rewrite Hdrop. reflexivity.
  - rewrite <- Hdrop. exact Hvalid.
  - eapply Forall_impl; [exact Hvalid|].
    intros x (i & -> & _). discriminate.
Qed.

(** On ["1,abc,3"] and five pages: the token ["abc"] is dropped. *)
Lemma unparsable_token_dropped_witness :
  splitPDF_parse (Some (js "1,abc,3")) 5
  = Normal (fold_left (push_part 5) ([js "1"] ++ [js "3"]) [])
  /\ Forall (valid_index 5) (fold_left (push_part 5) ([js "1"] ++ [js "3"]) [])
  /\ Forall (fun x => x <> NaN) (splitPDF_pageIndices (Some (js "1,abc,3")) 5).
Proof.
  apply (unparsable_token_dropped (js "1,abc,3") [js "1"] [js "3"] (js "abc") 5);
    reflexivity.
Defined.

(** C1 as stated fails: ["abc"] is a token of ["1,abc,3"] whose parse
    fails, and the parser returns [[0; 2]] instead of signalling an
    error. *)
Lemma unparsable_token_not_rejected :
  js "abc" ∈ split comma (js "1,abc,3")
  /\ parseInt (trim (js "abc")) = NaN
  /\ parse_fails (js "abc") = true
  /\ splitPDF_parse (Some (js "1,abc,3")) 5 = Normal [Num 0; Num 2]
  /\ splitPDF_parse (Some (js "1,abc,3")) 5 <> Throw.
Proof.
  split; [|split; [|split; [|split]]]; try reflexivity; try discriminate.
  vm_compute. apply list_elem_of_further, list_elem_of_here.
Qed.

(** C2 (a defect of the code): on a document without pages an absent or
    empty expression still selects [[0]], an index that names no page of
    the document, where the claim asks for the empty sequence.  The
    branch for a present expression never emits such an index, whatever
    the page count, and on a document without pages it selects nothing.
    On a document with at least one page the default [[0]] is the first
    page, as the claim says. *)
Theorem default_index_out_of_range :
  splitPDF_pageIndices None 0 = [Num 0]
  /\ splitPDF_pageIndices (Some []) 0 = [Num 0]
  /\ ~ Forall (valid_index 0) (splitPDF_pageIndices None 0)
  /\ ~ Forall (valid_index 0) (splitPDF_pageIndices (Some []) 0)
  /\ (forall c s totalPages,
         Forall (valid_index totalPages)
           (splitPDF_pageIndices (Some (c :: s)) totalPages))
  /\ (forall c s, splitPDF_pageIndices (Some (c :: s)) 0 = [])
  /\ (forall pages totalPages,
         pages = None \/ pages = Some [] -> 0 < totalPages ->
         splitPDF_pageIndices pages totalPages = [Num 0]
         /\ Forall (valid_index totalPages)
              (splitPDF_pageIndices pages totalPages)).
Proof.
  assert (Hbad : ~ Forall (valid_index 0) [Num 0]).
  { intros H. apply Forall_cons in H as [(i & [= <-] & Hi) _]. lia. }
  split; [reflexivity|]. split; [reflexivity|].
  split; [exact Hbad|]. split; [exact Hbad|].
  split; [exact pageIndices_valid|]. split.
  - intros c s. pose proof (pageIndices_valid c s 0) as H.
    destruct (splitPDF_pageIndices (Some (c :: s)) 0) as [|x l];
      [reflexivity|].
    apply Forall_cons in H as [(i & _ & Hi) _]. lia.
  - intros pages totalPages [->| ->] Hpos; (split; [reflexivity|]);
      repeat constructor; exists 0; (split; [reflexivity|lia]).
Qed.

(** C3: a range token whose two sides parse to [a] and [b] yields exactly
    the zero-based indices [i] with [a - 1 <= i <= b - 1], [0 <= i] and
    [i < totalPages], in ascending order: the range is clipped to the
    document, nothing is an error.  An out-of-order range yields nothing,
    and ["1-100"] on five pages yields [[0; 1; 2; 3; 4]]. *)
Theorem range_token_clipped (sa sb : jsstring) (a b totalPages : Z) :
  includes sa comma = false -> includes sa hyphen = false ->
  includes sb comma = false -> includes sb hyphen = false ->
  parseInt (trim sa) = Num a ->
  parseInt (trim sb) = Num b ->
  (exists l : list Z,
      splitPDF_pageIndices (Some (sa ++ hyphen :: sb)) totalPages = map Num l
      /\ StronglySorted Z.lt l
      /\ forall i, i ∈ l <-> a - 1 <= i <= b - 1 /\ 0 <= i /\ i < totalPages)
  /\ (b < a ->
      splitPDF_pageIndices (Some (sa ++ hyphen :: sb)) totalPages = [])
  /\ splitPDF_pageIndices (Some (js "1-100")) 5
     = [Num 0; Num 1; Num 2; Num 3; Num 4].
Proof.
  intros Hac Hah Hbc Hbh Ha Hb.
  assert (Hout : splitPDF_pageIndices (Some (sa ++ hyphen :: sb)) totalPages
                 = map Num (clipped (a - 1) (b - 1) totalPages)).
  { unfold splitPDF_pageIndices.
    replace (truthy_string (sa ++ hyphen :: sb)) with true
      by (destruct sa; reflexivity).
    rewrite split_none.
    2:{ rewrite includes_app, Hac. unfold includes in *. simpl.
        exact Hbc. }
    simpl. unfold push_part.
    rewrite includes_app, includes_cons_eq, orb_true_r.
    rewrite split_app, (split_none _ sa Hah), (split_none _ sb Hbh).
    simpl. unfold to_index. rewrite Ha, Hb. simpl.
    rewrite range_loop_spec. reflexivity. }
  split; [|split].
  - exists (clipped (a - 1) (b - 1) totalPages).
    split; [exact Hout|split; [apply clipped_sorted|]].
    intros i. rewrite elem_of_clipped. lia.
  - intros Hba. rewrite Hout. unfold clipped.
    rewrite seqZ_nil by lia. reflexivity.
  - reflexivity.
Qed.

(** On the token ["1-100"] and five pages. *)
Lemma range_token_clipped_witness :
  (exists l : list Z,
      splitPDF_pageIndices (Some (js "1" ++ hyphen :: js "100")) 5 = map Num l
      /\ StronglySorted Z.lt l
      /\ forall i, i ∈ l <-> 1 - 1 <= i <= 100 - 1 /\ 0 <= i /\ i < 5)
  /\ (100 < 1 ->
      splitPDF_pageIndices (Some (js "1" ++ hyphen :: js "100")) 5 = [])
  /\ splitPDF_pageIndices (Some (js "1-100")) 5
     = [Num 0; Num 1; Num 2; Num 3; Num 4].
Proof.
  apply (range_token_clipped (js "1") (js "100") 1 100 5); reflexivity.
Defined.

(** C4: indices are appended in token order, ascending within a range
    token, with no deduplication and no sort: the result is the
    concatenation, token by token, of what each token yields; the result
    for [e1,e2] is the result for [e1] followed by the result for [e2]; a
    token with a hyphen yields an ascending run of consecutive indices;
    ["3,1"] gives [[2; 0]], ["3,1-2"] gives [[2; 0; 1]], and a repeated
    page is kept twice. *)
Theorem token_order_preserved :
  (forall c s totalPages,
      splitPDF_pageIndices (Some (c :: s)) totalPages
      = concat (map (push_part totalPages []) (split comma (c :: s))))
  /\ (forall c1 e1 c2 e2 totalPages,
         splitPDF_pageIndices (Some ((c1 :: e1) ++ comma :: c2 :: e2))
           totalPages
         = splitPDF_pageIndices (Some (c1 :: e1)) totalPages
           ++ splitPDF_pageIndices (Some (c2 :: e2)) totalPages)
  /\ (forall sa sb totalPages,
         exists lo len,
           push_part totalPages [] (sa ++ hyphen :: sb)
           = map Num (seqZ lo len))
  /\ splitPDF_pageIndices (Some (js "3,1")) 5 = [Num 2; Num 0]
  /\ splitPDF_pageIndices (Some (js "3,1-2")) 5 = [Num 2; Num 0; Num 1]
  /\ splitPDF_pageIndices (Some (js "1,1-2,2")) 5
     = [Num 0; Num 0; Num 1; Num 1].
Proof.
  split; [|split; [|split; [|split; [|split]]]]; try reflexivity.
  - intros c s totalPages. unfold splitPDF_pageIndices.
    simpl truthy_string. cbv iota. rewrite fold_push_part. reflexivity.
  - intros c1 e1 c2 e2 totalPages. unfold splitPDF_pageIndices.
    simpl truthy_string. cbv iota.
    change ((c1 :: e1) ++ comma :: c2 :: e2)
      with ((c1 :: e1) ++ comma :: (c2 :: e2)).
    rewrite split_app, fold_left_app.
    rewrite (fold_push_part _ (split comma (c2 :: e2))).
    rewrite (fold_push_part _ (split comma (c2 :: e2)) []). reflexivity.
  - intros sa sb totalPages. unfold push_part.
    rewrite includes_app, includes_cons_eq, orb_true_r.
    destruct (map to_index (split hyphen (sa ++ hyphen :: sb)))
      as [|start [|end_ rest]].
    + exists 0, 0. reflexivity.
    + exists 0, 0. reflexivity.
    + rewrite range_loop_spec. simpl.
      destruct start as [|x], end_ as [|y];
        try (exists 0, 0; reflexivity).
      unfold clipped. eauto.
Qed.

End SplitClaims.

(** ** The recompressor *)

Module CompressFacts.
Import JS Compress.

(** *** Dimensions *)



(** *** The schedule of the loop *)

Lemma schedule_from_S c n :
  schedule_from c (S n) = schedule_from (next_call c) n.
Proof. unfold schedule_from. apply Nat.iter_succ_r. Qed.

Lemma schedule_S n : schedule (S n) = next_call (schedule n).
Proof. reflexivity. Qed.

Lemma schedule_floor n : (4 <= n)%nat -> schedule n = (10%Z, 0.2%float).
Proof.
  induction 1 as [|n _ IH].
  - vm_compute. reflexivity.
  - rewrite schedule_S, IH. vm_compute. reflexivity.
Qed.

(** In binary64 [0.35 - 0.15] falls just below [0.2]: the fifth ratio is
    [0.2] by the floor test. *)
Remark fifth_ratio_floored :
  PrimFloat.ltb (PrimFloat.sub (snd (schedule 3)) 0.15) 0.2 = true
  /\ snd (schedule 4) = 0.2%float.
Proof. split; vm_compute; reflexivity. Qed.

Lemma map_schedule_from_S c k :
  map (schedule_from c) (seq 0 (S k))
  = c :: map (schedule_from (next_call c)) (seq 0 k).
Proof.
  simpl. f_equal. rewrite <- seq_shift, map_map.
  apply map_ext. intros i. apply schedule_from_S.
Qed.

Section WithCollaborators.
Context {lib : Collaborators}.

(** *** One pass over the object table *)

Lemma compress_object_reencoded (q : Z) (r : float) (ctx : PDFContext) ref obj :
  compress_object q r ctx (ref, obj)
  = match reencoded q r obj with
    | Some newStream => <[ref := newStream]> ctx
    | None => ctx
    end.
Proof.
  destruct obj as [dict contents|tag]; [|reflexivity].
  unfold compress_object, reencoded.
  destruct (eligible _); [|reflexivity].
  destruct (reencode_image q r dict contents); reflexivity.
Qed.

Lemma fold_compress_lookup (q : Z) (r : float) (l : list (PDFRef * PDFObject))
    (st : PDFContext) (ref : PDFRef) :
  NoDup l.*1 ->
  fold_left (compress_object q r) l st !! ref
  = match (list_to_map l : PDFContext) !! ref ≫= reencoded q r with
    | Some newStream => Some newStream
    | None => st !! ref
    end.
Proof.
  revert st. induction l as [|[k obj] l IH]; intros st Hnd.
  - simpl. rewrite lookup_empty. reflexivity.
  - apply NoDup_cons in Hnd as [Hk Hnd].
    change (fold_left (compress_object q r) ((k, obj) :: l) st)
      with (fold_left (compress_object q r) l
              (compress_object q r st (k, obj))).
    rewrite (IH _ Hnd), compress_object_reencoded.
    rewrite list_to_map_cons.
    destruct (decide (k = ref)) as [->|Hne].
    + rewrite lookup_insert_eq.
      rewrite (not_elem_of_list_to_map_1 l ref Hk). simpl.
      destruct (reencoded q r obj); [|reflexivity].
      apply lookup_insert_eq.
    + rewrite lookup_insert_ne by exact Hne.
      destruct ((list_to_map l : PDFContext) !! ref ≫= reencoded q r);
        [reflexivity|].
      destruct (reencoded q r obj); [|reflexivity].
      apply lookup_insert_ne. exact Hne.
Qed.

(** After the loop every reference holds its new stream if its object was
    re-encoded, and its old object otherwise, whatever happened to the
    other objects. *)
Lemma compress_objects_lookup (q : Z) (r : float) (ctx : PDFContext) (ref : PDFRef) :
  compress_objects q r ctx !! ref
  = match ctx !! ref with
    | Some obj => Some (default obj (reencoded q r obj))
    | None => None
    end.
Proof.
  unfold compress_objects, enumerateIndirectObjects.
  rewrite fold_compress_lookup by apply NoDup_fst_map_to_list.
  rewrite list_to_map_to_list.
  destruct (ctx !! ref) as [obj|]; simpl; [|reflexivity].
  destruct (reencoded q r obj); reflexivity.
Qed.

(** *** The target-size loop *)

(** A run of the loop makes [k <= remaining] attempts, with the scheduled
    arguments; every attempt but the last returned bytes over the target;
    the outcome is that of the last attempt. *)
Lemma target_loop_run pdfBytes target (n : nat) (q : Z) (r : float) cb log :
  exists k : nat,
    (k <= n)%nat
    /\ fst (target_loop pdfBytes target n q r cb log)
       = log ++ map (schedule_from (q, r)) (seq 0 k)
    /\ (forall i, (S i < k)%nat ->
          exists b, run_call pdfBytes (schedule_from (q, r) i) = Normal b
                    /\ fits b target = false)
    /\ match k with
       | O => n = O
              /\ snd (target_loop pdfBytes target n q r cb log) = Normal cb
       | S j =>
           match run_call pdfBytes (schedule_from (q, r) j) with
           | Throw =>
               snd (target_loop pdfBytes target n q r cb log) = Throw
           | Normal b =>
               snd (target_loop pdfBytes target n q r cb log)
               = Normal (Some b)
               /\ (fits b target = true \/ k = n)
           end
       end.
Proof.
  revert q r cb log. induction n as [|n IH]; intros q r cb log.
  - exists O. simpl. rewrite app_nil_r.
    repeat split; [lia|intros i Hi; lia].
  - simpl target_loop. unfold run_bind, attempt.
    destruct (performCompression pdfBytes q r) as [b|] eqn:Hpc.
    2:{ exists 1%nat. unfold run_call. simpl. rewrite Hpc.
        repeat split; [lia|intros i Hi; lia]. }
    destruct (fits b target) eqn:Hfit.
    { exists 1%nat. unfold run_call. simpl. rewrite Hpc.
      repeat split; [lia|intros i Hi; lia|left; exact Hfit]. }
    destruct (IH (next_quality q) (next_resizeRatio r) (Some b)
                 (log ++ [(q, r)])) as (k & Hk & Hlog & Hall & Hlast).
    exists (S k). split; [lia|]. split; [|split].
    + rewrite Hlog, map_schedule_from_S, <- app_assoc. reflexivity.
    + intros [|i] Hi.
      * exists b. unfold run_call. simpl. split; [exact Hpc|exact Hfit].
      * rewrite schedule_from_S. apply Hall. lia.
    + destruct k as [|j].
      * destruct Hlast as [-> Hout]. unfold run_call. simpl.
        rewrite Hpc. split; [exact Hout|right; reflexivity].
      * rewrite schedule_from_S. change (next_call (q, r))
          with (next_quality q, next_resizeRatio r).
        destruct (run_call pdfBytes _); [|exact Hlast].
        destruct Hlast as [Hout [Hf|Hf]];
          (split; [exact Hout|]); [left; exact Hf|right; lia].
Qed.

Lemma loop_target_Some options target :
  loop_target options = Some target
  <-> targetSize_of options = Some target /\ truthy_num target = true.
Proof.
  unfold loop_target. destruct (targetSize_of options) as [t|].
  - destruct (truthy_num t) eqn:Ht; split.
    + intros [= <-]. split; [reflexivity|exact Ht].
    + intros [[= <-] _]. reflexivity.
    + discriminate.
    + intros [[= <-] Ht']. congruence.
  - split; [discriminate|intros [? _]; discriminate].
Qed.

(** Without a loop target the request is one pass with the settings of
    the tier table. *)
Lemma compressPDF_no_target pdfBytes options :
  loop_target options = None ->
  calls_of pdfBytes options = [tier_settings (opt_quality options)]
  /\ outcome_of pdfBytes options
     = run_call pdfBytes (tier_settings (opt_quality options)).
Proof.
  unfold loop_target, calls_of, outcome_of, compressPDF, run_call.
  destruct (tier_settings (opt_quality options)) as [q0 r0].
  destruct (targetSize_of options) as [t|]; [|split; reflexivity].
  destruct (truthy_num t); [discriminate|split; reflexivity].
Qed.

(** With a target the request is the loop, started at [(70, 0.8)] with a
    budget of five. *)
Lemma compressPDF_target pdfBytes options target :
  loop_target options = Some target ->
  calls_of pdfBytes options
  = fst (target_loop pdfBytes target 5 70 0.8 None [])
  /\ outcome_of pdfBytes options
     = match snd (target_loop pdfBytes target 5 70 0.8 None []) with
       | Normal (Some b) => Normal b
       | Normal None => Throw
       | Throw => Throw
       end.
Proof.
  intros Hgate. apply loop_target_Some in Hgate as [Ht Htruthy].
  unfold calls_of, outcome_of, compressPDF.
  rewrite Ht, Htruthy.
  destruct (tier_settings (opt_quality options)) as [q0 r0].
  unfold run_bind.
  destruct (target_loop pdfBytes target 5 70 0.8 None [])
    as [log [[b|]|]]; split; reflexivity.
Qed.

(** The same, read off [target_loop_run]: between one and five attempts
    with the scheduled arguments, and the outcome of the last one. *)
Lemma compressPDF_target_run pdfBytes options target :
  loop_target options = Some target ->
  exists j : nat,
    (S j <= 5)%nat
    /\ calls_of pdfBytes options = map schedule (seq 0 (S j))
    /\ (forall i, (i < j)%nat ->
          exists b, run_call pdfBytes (schedule i) = Normal b
                    /\ fits b target = false)
    /\ outcome_of pdfBytes options = run_call pdfBytes (schedule j)
    /\ (forall b, run_call pdfBytes (schedule j) = Normal b ->
          fits b target = true \/ S j = 5%nat).
Proof.
  intros Hgate.
  destruct (compressPDF_target pdfBytes options target Hgate)
    as [Hcalls Hout].
  destruct (target_loop_run pdfBytes target 5 70 0.8 None [])
    as (k & Hk & Hlog & Hall & Hlast).
  destruct k as [|j]; [destruct Hlast as [Hn _]; discriminate|].
  exists j. split; [exact Hk|]. split; [|split; [|split]].
  - rewrite Hcalls, Hlog. reflexivity.
  - intros i Hi. apply Hall. lia.
  - rewrite Hout. fold (schedule j) in Hlast.
    destruct (run_call pdfBytes (schedule j)) as [b|].
    + destruct Hlast as [-> _]. reflexivity.
    + rewrite Hlast. reflexivity.
  - intros b Hb. fold (schedule j) in Hlast. rewrite Hb in Hlast.
    apply Hlast.
Qed.

End WithCollaborators.

End CompressFacts.

(** ** Claims on the recompressor *)

Module CompressClaims.
Import JS Compress CompressFacts.
Local Open Scope Z_scope.

Section WithCollaborators.
Context {lib : Collaborators}.

(** C5: every request makes at least one and at most five attempts and
    then ends (the model is a total function; the loop is structurally
    recursive on the iterations left), whatever the target.  When the
    loop runs and no scheduled attempt throws, the request returns bytes,
    and they are those of the last attempt made, which either meets the
    target or is the fifth.  When the target is out of reach (every
    scheduled attempt returns bytes over it), all five attempts are made
    and the request returns, without an error, the bytes of the fifth,
    made at the floor settings [(10, 0.2)]. *)
Theorem target_loop_bounded (pdfBytes : bytes) (options : Options) :
  (1 <= length (calls_of pdfBytes options) <= 5)%nat
  /\ forall target,
       loop_target options = Some target ->
       ((forall i, (i < 5)%nat -> run_call pdfBytes (schedule i) <> Throw) ->
        exists b c,
          outcome_of pdfBytes options = Normal b
          /\ last (calls_of pdfBytes options) = Some c
          /\ run_call pdfBytes c = Normal b
          /\ (fits b target = true
              \/ length (calls_of pdfBytes options) = 5%nat))
       /\ ((forall i, (i < 5)%nat ->
              exists b, run_call pdfBytes (schedule i) = Normal b
                        /\ fits b target = false) ->
           calls_of pdfBytes options = map schedule (seq 0 5)
           /\ exists b,
                outcome_of pdfBytes options = Normal b
                /\ run_call pdfBytes (10, 0.2%float) = Normal b).
Proof.
  split.
  { destruct (loop_target options) as [target|] eqn:Hgate.
    - destruct (compressPDF_target_run pdfBytes options target Hgate)
        as (j & Hj & Hcalls & _).
      rewrite Hcalls, length_map, length_seq. lia.
    - destruct (compressPDF_no_target pdfBytes options Hgate) as [-> _].
      simpl. lia. }
  intros target Hgate.
  destruct (compressPDF_target_run pdfBytes options target Hgate)
    as (j & Hj & Hcalls & Hall & Hout & Hfit).
  assert (Hlen : length (calls_of pdfBytes options) = S j).
  { rewrite Hcalls, length_map, length_seq. reflexivity. }
  split.
  - intros Hnothrow.
    destruct (run_call pdfBytes (schedule j)) as [b|] eqn:Hlast.
    2:{ exfalso. apply (Hnothrow j); [lia|exact Hlast]. }
    exists b, (schedule j). split; [exact Hout|]. split; [|split].
    + rewrite Hcalls, seq_S, map_app. apply last_snoc.
    + exact Hlast.
    + destruct (Hfit b eq_refl) as [Hf|Hf]; [left; exact Hf|right; lia].
  - intros Hover.
    destruct (Hover j ltac:(lia)) as (b & Hb & Hfb).
    assert (Hj5 : j = 4%nat).
    { destruct (Hfit b Hb) as [Hf|Hf]; [congruence|lia]. }
    subst j. split; [exact Hcalls|].
    exists b. split; [rewrite Hout; exact Hb|exact Hb].
Qed.

(** C6: the attempts of a request with a target are an initial segment of
    the schedule [(70, 0.8), (55, 0.65), (40, 0.5), (25, 0.35), (10, 0.2)],
    in binary64.  From one attempt to the next the quality is lowered by
    15 and the ratio by 0.15, each strictly, until the floors 10 and 0.2
    are reached at the fifth attempt; from there on both stay at the
    floor.  Each step is component-wise below or equal to the one before,
    the quality is always within [10, 100] and the ratio within
    [0.2, 1.0]. *)
Theorem attempts_monotone (pdfBytes : bytes) (options : Options)
    (target : jsnum) (n : nat) :
  loop_target options = Some target ->
  (exists k : nat,
      (1 <= k <= 5)%nat
      /\ calls_of pdfBytes options = map schedule (seq 0 k))
  /\ map schedule (seq 0 5)
     = [(70, 0.8%float); (55, 0.65%float); (40, 0.5%float);
        (25, 0.35%float); (10, 0.2%float)]
  /\ schedule (S n)
     = (Z.max 10 (fst (schedule n) - 15),
        next_resizeRatio (snd (schedule n)))
  /\ fst (schedule (S n)) <= fst (schedule n)
  /\ PrimFloat.leb (snd (schedule (S n))) (snd (schedule n)) = true
  /\ 10 <= fst (schedule n) <= 100
  /\ PrimFloat.leb 0.2 (snd (schedule n)) = true
  /\ PrimFloat.leb (snd (schedule n)) 1 = true
  /\ ((n < 4)%nat ->
      fst (schedule (S n)) = fst (schedule n) - 15
      /\ PrimFloat.ltb (snd (schedule (S n))) (snd (schedule n)) = true)
  /\ ((n < 3)%nat ->
      snd (schedule (S n)) = PrimFloat.sub (snd (schedule n)) 0.15)
  /\ ((4 <= n)%nat ->
      schedule n = (10, 0.2%float) /\ schedule (S n) = (10, 0.2%float)).
Proof.
  intros Hgate. split.
  { destruct (compressPDF_target_run pdfBytes options target Hgate)
      as (j & Hj & Hcalls & _).
    exists (S j). split; [lia|exact Hcalls]. }
  split; [vm_compute; reflexivity|].
  destruct (le_lt_dec 4 n) as [Hn|Hn].
  - rewrite (schedule_floor (S n)) by lia. rewrite (schedule_floor n Hn).
    repeat split; try (vm_compute; reflexivity); try lia;
      try (vm_compute; discriminate).
  - destruct n as [|[|[|[|n]]]]; [| | | |lia];
      (repeat split; try (vm_compute; reflexivity); try lia;
       try (vm_compute; discriminate); try (intros _; vm_compute; reflexivity);
       try (intros _; split; vm_compute; reflexivity)).
Qed.

(** C7, as the code has it (the claim as stated fails): whenever the
    requested target size reads as a number of kilobytes other than 0
    ([parseInt(options.targetSize) * 1024] is neither [0] nor [NaN]), the
    first attempt is made with [quality = 70] and [resizeRatio = 0.8],
    whatever [options.quality] says; the settings of the tier table, which
    are never [(70, 0.8)], are not used.  Otherwise the request is a
    single pass with the settings of the tier table. *)
Theorem target_overrides_tier (pdfBytes : bytes) (options : Options) :
  (forall target,
      loop_target options = Some target ->
      (exists rest, calls_of pdfBytes options = (70, 0.8%float) :: rest)
      /\ forall rest,
           calls_of pdfBytes options
           <> tier_settings (opt_quality options) :: rest)
  /\ (loop_target options = None ->
      calls_of pdfBytes options = [tier_settings (opt_quality options)])
  /\ tier_settings (opt_quality options) <> (70, 0.8%float).
Proof.
  assert (Htier : tier_settings (opt_quality options) <> (70, 0.8%float)).
  { unfold tier_settings. repeat case_bool_decide; intros [= ? ?]. }
  split; [|split; [|exact Htier]].
  - intros target Hgate.
    destruct (compressPDF_target_run pdfBytes options target Hgate)
      as (j & Hj & Hcalls & _).
    split.
    + exists (map schedule (seq 1 j)). rewrite Hcalls. reflexivity.
    + intros rest Heq. rewrite Hcalls in Heq. simpl in Heq.
      injection Heq as Hhd _. apply Htier. symmetry. exact Hhd.
  - intros Hgate. apply (compressPDF_no_target pdfBytes options Hgate).
Qed.

(** C8: a pass whose document loads ends with the save of the processed
    object table, whether or not some re-encoding threw.  In that table an
    eligible image whose re-encoding threw is still the object it was,
    every eligible image whose re-encoding returned is replaced by its new
    stream, whatever happened to the other images, and the other objects
    are untouched.  So the pass returns bytes whenever the save does. *)
Theorem image_failure_skipped (pdfBytes : bytes) (q : Z) (r : float)
    (ctx : PDFContext) :
  PDFDocument_load pdfBytes = Normal ctx ->
  performCompression pdfBytes q r
  = PDFDocument_save (compress_objects q r ctx)
  /\ (forall ref dict contents,
         ctx !! ref = Some (PDFRawStream dict contents) ->
         eligible (PDFRawStream dict contents) = true ->
         match reencode_image q r dict contents with
         | Throw =>
             compress_objects q r ctx !! ref
             = Some (PDFRawStream dict contents)
         | Normal newStream =>
             compress_objects q r ctx !! ref = Some newStream
         end)
  /\ (forall ref obj,
         ctx !! ref = Some obj -> eligible obj = false ->
         compress_objects q r ctx !! ref = Some obj)
  /\ (forall b,
         PDFDocument_save (compress_objects q r ctx) = Normal b ->
         performCompression pdfBytes q r = Normal b).
Proof.
  intros Hload.
  assert (Hpass : performCompression pdfBytes q r
                  = PDFDocument_save (compress_objects q r ctx)).
  { unfold performCompression. rewrite Hload. reflexivity. }
  split; [exact Hpass|split; [|split]].
  - intros ref dict contents Href Hel.
    rewrite compress_objects_lookup, Href. unfold reencoded.
    rewrite Hel. destruct (reencode_image q r dict contents); reflexivity.
  - intros ref obj Href Hel.
    rewrite compress_objects_lookup, Href. unfold reencoded.
    destruct obj as [dict contents|tag]; [|reflexivity].
    rewrite Hel. reflexivity.
  - intros b Hb. rewrite Hpass. exact Hb.
Qed.


(** C10: every attempt is [performCompression] on the bytes read from the
    uploaded file, so the bytes a request with a target returns are those
    of one pass over the original document (load it, process the object
    table, save) with the arguments of the last attempt made. *)
Theorem attempts_do_not_compound (pdfBytes : bytes) (options : Options)
    (target : jsnum) (b : bytes) :
  loop_target options = Some target ->
  outcome_of pdfBytes options = Normal b ->
  exists (c : call) (ctx : PDFContext),
    last (calls_of pdfBytes options) = Some c
    /\ performCompression pdfBytes (fst c) (snd c) = Normal b
    /\ PDFDocument_load pdfBytes = Normal ctx
    /\ PDFDocument_save (compress_objects (fst c) (snd c) ctx) = Normal b.
Proof.
  intros Hgate Hb.
  destruct (compressPDF_target_run pdfBytes options target Hgate)
    as (j & Hj & Hcalls & _ & Hout & _).
  rewrite Hout in Hb.
  assert (Hlast : last (calls_of pdfBytes options) = Some (schedule j)).
  { rewrite Hcalls, seq_S, map_app. apply last_snoc. }
  unfold run_call, performCompression in Hb.
  destruct (PDFDocument_load pdfBytes) as [ctx|] eqn:Hload;
    [|discriminate].
  exists (schedule j), ctx. split; [exact Hlast|]. split; [|split].
  - unfold performCompression. rewrite Hload. exact Hb.
  - reflexivity.
  - exact Hb.
Qed.

End WithCollaborators.

End CompressClaims.

(** ** The claims on the sample document *)

Module SampleRuns.
Import JS Compress CompressFacts CompressClaims Sample.
Local Open Scope Z_scope.

(** On the sample no pass throws. *)
Lemma sample_never_throws (c : call) : run_call [] c <> Throw.
Proof. unfold run_call, performCompression. simpl. discriminate. Qed.

(** A target of 1 KB on the sample: five attempts, the fifth returned. *)
Lemma target_loop_bounded_witness :
  loop_target target_1k = Some (Num 1024)
  /\ (1 <= length (calls_of [] target_1k) <= 5)%nat
  /\ (exists b c,
         outcome_of [] target_1k = Normal b
         /\ last (calls_of [] target_1k) = Some c
         /\ run_call [] c = Normal b
         /\ (fits b (Num 1024) = true
             \/ length (calls_of [] target_1k) = 5%nat))
  /\ calls_of [] target_1k = map schedule (seq 0 5)
  /\ exists b,
       outcome_of [] target_1k = Normal b
       /\ run_call [] (10, 0.2%float) = Normal b.
Proof.
  destruct (@target_loop_bounded lib [] target_1k) as (Hlen & Hloop).
  destruct (Hloop (Num 1024) eq_refl) as (Hlast & Hfloor).
  split; [reflexivity|]. split; [exact Hlen|].
  split.
  - apply Hlast. intros i _. apply sample_never_throws.
  - apply Hfloor. intros i Hi.
    exists (bytes_of (run_call [] (schedule i))).
    destruct i as [|[|[|[|[|i]]]]]; [| | | | |lia];
      (split; vm_compute; reflexivity).
Defined.

(** A target of 6 KB on the sample, and the step from the third to the
    fourth attempt. *)
Lemma attempts_monotone_witness :
  loop_target target_6k = Some (Num 6144)
  /\ (exists k : nat,
         (1 <= k <= 5)%nat /\ calls_of [] target_6k = map schedule (seq 0 k))
  /\ schedule 3 = (Z.max 10 (fst (schedule 2) - 15),
                   next_resizeRatio (snd (schedule 2)))
  /\ fst (schedule 3) <= fst (schedule 2)
  /\ PrimFloat.leb (snd (schedule 3)) (snd (schedule 2)) = true.
Proof.
  pose proof (@attempts_monotone lib [] target_6k (Num 6144) 2 eq_refl)
    as (Hcalls & _ & Hstep & Hq & Hr & _).
  repeat split; assumption.
Defined.

(** The tier ['low'] with a target of 6 KB, and without a target. *)
Lemma target_overrides_tier_witness :
  loop_target target_6k = Some (Num 6144)
  /\ tier_settings (opt_quality target_6k) = (30, 0.5%float)
  /\ (exists rest, calls_of [] target_6k = (70, 0.8%float) :: rest)
  /\ loop_target low_tier = None
  /\ calls_of [] low_tier = [tier_settings (opt_quality low_tier)].
Proof.
  split; [reflexivity|]. split; [reflexivity|]. split; [|split].
  - exact (proj1 (proj1 (@target_overrides_tier lib [] target_6k)
                    (Num 6144) eq_refl)).
  - reflexivity.
  - exact (proj1 (proj2 (@target_overrides_tier lib [] low_tier)) eq_refl).
Defined.

(** C7 as stated fails: a target of ["0.5"] kilobytes is requested, with
    the tier ['low'], and the only attempt is made with the tier's
    [(30, 0.5)], not with [(70, 0.8)]. *)
Lemma fractional_target_uses_tier :
  opt_targetSize target_half = Some (js "0.5")
  /\ targetSize_of target_half = Some (Num 0)
  /\ calls_of [] target_half = [(30, 0.5%float)]
  /\ head (calls_of [] target_half) <> Some (70, 0.8%float).
Proof.
  split; [reflexivity|]. split; [reflexivity|]. split; [reflexivity|].
  vm_compute. intros [= ? ?].
Qed.

(** One pass over the sample: the damaged image is kept, the other one is
    re-encoded at 500 by 500, and the pass reaches the save. *)
Lemma image_failure_skipped_witness :
  PDFDocument_load [] = Normal table
  /\ reencode_image 30 0.5 (jpeg_dict 640 480) corrupt = Throw
  /\ compress_objects 30 0.5 table !! (1%N, 0%N) = Some damaged
  /\ compress_objects 30 0.5 table !! (2%N, 0%N)
     = Some (PDFRawStream (new_stream_dict 500 500)
               (repeat Byte.x01 (Z.to_nat 6000)))
  /\ compress_objects 30 0.5 table !! (3%N, 0%N) = Some (PDFOtherObject 0)
  /\ performCompression [] 30 0.5
     = PDFDocument_save (compress_objects 30 0.5 table).
Proof.
  destruct (@image_failure_skipped lib [] 30 0.5%float table eq_refl)
    as (Hpass & Himage & Hother & _).
  split; [reflexivity|]. split; [reflexivity|]. split; [|split; [|split]].
  - exact (Himage (1%N, 0%N) (jpeg_dict 640 480) corrupt eq_refl eq_refl).
  - exact (Himage (2%N, 0%N) (jpeg_dict 1000 1000) photo eq_refl eq_refl).
  - exact (Hother (3%N, 0%N) (PDFOtherObject 0) eq_refl eq_refl).
  - exact Hpass.
Defined.


(** A target of 6 KB on the sample: the bytes returned are one pass over
    the loaded table at the arguments of the fourth attempt. *)
Lemma attempts_do_not_compound_witness :
  loop_target target_6k = Some (Num 6144)
  /\ exists (c : call) (ctx : PDFContext),
       last (calls_of [] target_6k) = Some c
       /\ performCompression [] (fst c) (snd c)
          = Normal (bytes_of (outcome_of [] target_6k))
       /\ PDFDocument_load [] = Normal ctx
       /\ PDFDocument_save (compress_objects (fst c) (snd c) ctx)
          = Normal (bytes_of (outcome_of [] target_6k)).
Proof.
  split; [reflexivity|].
  apply (@attempts_do_not_compound lib [] target_6k (Num 6144)
           (bytes_of (outcome_of [] target_6k)) eq_refl).
  vm_compute. reflexivity.
Defined.

End SampleRuns.

(** ** More on the built-ins *)

Module JSMoreFacts.
Import JS JSMore.

Lemma digit_value_range radix c d :
  digit_value radix c = Some d -> (48 <= c <= 122)%N.
Proof.
  unfold digit_value.
  destruct (N.leb_spec 48 c), (N.leb_spec c 57); simpl; [lia| | |];
    destruct (N.leb_spec 97 c), (N.leb_spec c 122); simpl; try lia;
    destruct (N.leb_spec 65 c), (N.leb_spec c 90); simpl; try lia;
    discriminate.
Qed.

Lemma is_white_range c : is_white c = true -> (c < 48 \/ 122 < c)%N.
Proof.
  unfold is_white. intros H.
  repeat (apply orb_true_iff in H as [H|H]);
    repeat (apply andb_true_iff in H as [? H]);
    repeat match goal with
           | E : (_ <=? _)%N = true |- _ => apply N.leb_le in E
           | E : (_ =? _)%N = true |- _ => apply N.eqb_eq in E
           end; lia.
Qed.

Lemma stops_digit radix c : stops c -> digit_value radix c = None.
Proof.
  intros Hc. destruct (digit_value radix c) as [d|] eqn:E; [|reflexivity].
  apply digit_value_range in E. unfold stops in Hc. lia.
Qed.

Lemma take_digits_app_stop radix s c t :
  stops c -> take_digits radix (s ++ c :: t) = take_digits radix s.
Proof.
  intros Hc. induction s as [|d s IH]; simpl.
  - rewrite (stops_digit radix c Hc). reflexivity.
  - destruct (digit_value radix d); [rewrite IH|]; reflexivity.
Qed.

Lemma trim_start_app s t :
  trim_start s <> [] -> trim_start (s ++ t) = trim_start s ++ t.
Proof.
  induction s as [|c s IH]; simpl; [contradiction|].
  destruct (is_white c); [exact IH|reflexivity].
Qed.

Lemma trim_start_app_white s t :
  trim_start s = [] -> trim_start (s ++ t) = trim_start t.
Proof.
  induction s as [|c s IH]; simpl; [reflexivity|].
  destruct (is_white c); [exact IH|discriminate].
Qed.

Lemma trim_start_idem s : trim_start (trim_start s) = trim_start s.
Proof.
  induction s as [|c s IH]; simpl; [reflexivity|].
  destruct (is_white c) eqn:E; [exact IH|]. simpl. rewrite E. reflexivity.
Qed.

Lemma parseInt_unfold s :
  parseInt s
  = match trim_start s with
    | c :: t => if (c =? hyphen)%N then read_digits (-1) t
                else if (c =? plus)%N then read_digits 1 t
                else read_digits 1 (c :: t)
    | [] => NaN
    end.
Proof.
  unfold parseInt, read_digits. destruct (trim_start s) as [|c t];
    [reflexivity|].
  destruct (c =? hyphen)%N; [reflexivity|].
  destruct (c =? plus)%N; reflexivity.
Qed.

Lemma read_digits_app_stop sign s2 c t :
  stops c -> read_digits sign (s2 ++ c :: t) = read_digits sign s2.
Proof.
  intros Hc.
  assert (H48 : (c =? 48)%N = false)
    by (apply N.eqb_neq; unfold stops in Hc; lia).
  assert (H120 : (c =? 120)%N = false)
    by (apply N.eqb_neq; unfold stops in Hc; lia).
  assert (H88 : (c =? 88)%N = false)
    by (apply N.eqb_neq; unfold stops in Hc; lia).
  unfold read_digits. destruct s2 as [|c0 [|x t0]]; simpl app;
    cbv beta iota.
  - destruct t as [|x t]; cbv beta iota; rewrite ?H48; simpl;
      rewrite (stops_digit 10 c Hc); reflexivity.
  - rewrite H120, H88, andb_false_r.
    change (c0 :: c :: t) with ([c0] ++ c :: t).
    rewrite (take_digits_app_stop 10 [c0] c t Hc). reflexivity.
  - destruct ((c0 =? 48) && ((x =? 120) || (x =? 88)))%N.
    + rewrite (take_digits_app_stop 16 t0 c t Hc). reflexivity.
    + change (c0 :: x :: t0 ++ c :: t) with ((c0 :: x :: t0) ++ c :: t).
      rewrite (take_digits_app_stop 10 (c0 :: x :: t0) c t Hc).
      reflexivity.
Qed.

(** [parseInt] does not look past a code unit that stops the digits, once
    something other than white space came before it. *)
Lemma parseInt_app_stop s c t :
  trim_start s <> [] -> stops c ->
  parseInt (s ++ c :: t) = parseInt s.
Proof.
  intros Hs Hc. rewrite !parseInt_unfold.
  rewrite (trim_start_app s (c :: t) Hs).
  destruct (trim_start s) as [|c1 rest]; [contradiction|]. simpl app.
  cbv beta iota.
  destruct (c1 =? hyphen)%N; [apply read_digits_app_stop; exact Hc|].
  destruct (c1 =? plus)%N; [apply read_digits_app_stop; exact Hc|].
  change (c1 :: rest ++ c :: t) with ((c1 :: rest) ++ c :: t).
  apply read_digits_app_stop. exact Hc.
Qed.

Lemma parseInt_all_white s : trim_start s = [] -> parseInt s = NaN.
Proof. intros H. rewrite parseInt_unfold, H. reflexivity. Qed.

Lemma parseInt_app_white s w :
  forallb is_white w = true -> parseInt (s ++ w) = parseInt s.
Proof.
  destruct w as [|c w]; [rewrite app_nil_r; reflexivity|].
  intros Hw. simpl in Hw. apply andb_true_iff in Hw as [Hc Hw].
  destruct (trim_start s) as [|c1 rest] eqn:Hs.
  - rewrite (parseInt_all_white s Hs). apply parseInt_all_white.
    rewrite (trim_start_app_white s _ Hs). simpl. rewrite Hc.
    clear -Hw. induction w as [|d w IH]; [reflexivity|].
    simpl in *. apply andb_true_iff in Hw as [-> Hw]. exact (IH Hw).
  - apply parseInt_app_stop; [rewrite Hs; discriminate|].
    apply is_white_range. exact Hc.
Qed.

Lemma trim_start_suffix s :
  exists w, s = w ++ trim_start s /\ forallb is_white w = true.
Proof.
  induction s as [|c s (w & Hs & Hw)]; simpl.
  - exists []. split; reflexivity.
  - destruct (is_white c) eqn:E.
    + exists (c :: w). simpl. rewrite E, Hw. split; [f_equal; exact Hs|reflexivity].
    + exists []. split; reflexivity.
Qed.

(** Trimming a string does not change what [parseInt] reads in it. *)
Lemma parseInt_trim s : parseInt (trim s) = parseInt s.
Proof.
  unfold trim.
  destruct (trim_start_suffix (rev (trim_start s))) as (w & Hrev & Hw).
  assert (Hs : trim_start s
               = rev (trim_start (rev (trim_start s))) ++ rev w).
  { rewrite <- rev_app_distr, <- Hrev, rev_involutive. reflexivity. }
  assert (Hstart : parseInt s = parseInt (trim_start s)).
  { rewrite !parseInt_unfold, trim_start_idem. reflexivity. }
  rewrite Hstart. rewrite Hs at 2. symmetry. apply parseInt_app_white.
  rewrite forallb_forall in *. intros x Hx. apply Hw.
  apply in_rev. exact Hx.
Qed.

End JSMoreFacts.

(** ** rotatePDF *)

Module RotateFacts.
Import JS JSMore Split Rotate JSFacts JSMoreFacts.




Lemma right_angles_accepts a :
  multiple_of_90 a = true -> @setRotation right_angles a = Normal a.
Proof. intros Ha. simpl. rewrite Ha. reflexivity. Qed.

Lemma saved_pages_nonempty (pages : list float) :
  pages <> [] -> saved_pages pages = pages.
Proof. destruct pages; [congruence|reflexivity]. Qed.


(** The index of a token with a hyphen is that of the part before the
    hyphen, when that part holds a number. *)
Lemma to_index_hyphen sa sb a :
  parseInt (trim sa) = Num a ->
  to_index (sa ++ hyphen :: sb) = to_index sa.
Proof.
  intros Ha. unfold to_index. rewrite !parseInt_trim.
  rewrite parseInt_trim in Ha. f_equal.
  apply parseInt_app_stop.
  - intros Hs. rewrite (parseInt_all_white sa Hs) in Ha. discriminate.
  - unfold stops, hyphen. lia.
Qed.

Section WithLibrary.
Context {lib : PageLibrary}.

(** Out of the document, or not a number: the callback does nothing. *)
Lemma rotate_index_outside deg (angles : list float) index :
  in_document (length angles) index = false ->
  rotate_index deg angles index = Normal angles.
Proof.
  unfold in_document, rotate_index. intros ->. reflexivity.
Qed.

Lemma rotate_indices_outside deg (angles : list float) pageIndices :
  Forall (fun index => in_document (length angles) index = false)
    pageIndices ->
  rotate_indices deg pageIndices angles = Normal angles.
Proof.
  induction 1 as [|index rest Hout _ IH]; simpl; [reflexivity|].
  rewrite (rotate_index_outside deg angles index Hout). exact IH.
Qed.








End WithLibrary.

End RotateFacts.

(** ** rotatePDF: what gets rotated *)

Module RotateExtras.
Import JS Split Rotate JSFacts JSMoreFacts RotateFacts.

Section WithLibrary.
Context {lib : PageLibrary}.



(** X3: in the page list of [rotatePDF] a range is not a range: of a
    token [sa-sb] only the part before the hyphen is read, so the request
    turns the same pages as the token [sa] alone (whereas [splitPDF] takes
    the pages from [sa] to [sb]). *)
Theorem rotate_ignores_range_end (angles : list float)
    (degrees : option float) (sa sb : jsstring) (a : Z) :
  includes sa comma = false -> includes sb comma = false ->
  parseInt (trim sa) = Num a ->
  rotatePDF angles degrees (Some (sa ++ hyphen :: sb))
  = rotatePDF angles degrees (Some sa).
Proof.
  intros Hac Hbc Ha. unfold rotatePDF, rotate_pages.
  assert (Hne1 : sa ++ hyphen :: sb <> js "all").
  { intros Heq.
    assert (H : includes (sa ++ hyphen :: sb) hyphen = true)
      by (rewrite includes_app, includes_cons_eq; apply orb_true_r).
    rewrite Heq in H. discriminate. }
  assert (Hne2 : sa <> js "all").
  { intros ->. discriminate. }
  assert (Hsa : truthy_string sa = true).
  { destruct sa; [discriminate|reflexivity]. }
  rewrite !bool_decide_eq_false_2 by assumption. rewrite Hsa.
  replace (truthy_string (sa ++ hyphen :: sb)) with true
    by (destruct sa; reflexivity).
  simpl. rewrite (split_none comma sa Hac).
  rewrite split_none.
  2:{ rewrite includes_app, Hac. unfold includes in *. simpl. exact Hbc. }
  simpl. rewrite (to_index_hyphen sa sb a Ha). reflexivity.
Qed.

(** X4: when no entry of the page list names a page of the document (the
    entries are out of range or not numbers), nothing is turned and
    nothing throws, whatever the angle and whatever the library accepts.
    A document with pages is saved with the angles it was loaded with; a
    document without pages, of which no entry can name a page, is saved
    with the one empty page that the save adds. *)
Theorem rotate_nothing_selected (angles : list float)
    (degrees : option float) (s : jsstring) :
  s <> js "all" -> truthy_string s = true ->
  Forall (fun part => in_document (length angles) (to_index part) = false)
    (split comma s) ->
  rotatePDF angles degrees (Some s) = Normal (saved_pages angles)
  /\ (angles <> [] -> rotatePDF angles degrees (Some s) = Normal angles)
  /\ (angles = [] ->
      rotatePDF angles degrees (Some s) = Normal [0%float]).
Proof.
  intros Hall Hs Hout.
  assert (Hrun : rotatePDF angles degrees (Some s)
                 = Normal (saved_pages angles)).
  { unfold rotatePDF, rotate_pages.
    rewrite bool_decide_eq_false_2 by exact Hall. rewrite Hs. simpl negb.
    cbv iota. rewrite rotate_indices_outside; [reflexivity|].
    apply Forall_map. exact Hout. }
  split; [exact Hrun|split].
  - intros Hne. rewrite Hrun, (saved_pages_nonempty _ Hne). reflexivity.
  - intros ->. exact Hrun.
Qed.

End WithLibrary.



(** The token ["2-3"] against the token ["2"]. *)
Lemma rotate_ignores_range_end_witness :
  @rotatePDF right_angles [0; 90; 270]%float (Some 90%float)
    (Some (js "2" ++ hyphen :: js "3"))
  = @rotatePDF right_angles [0; 90; 270]%float (Some 90%float)
      (Some (js "2")).
Proof.
  apply (@rotate_ignores_range_end right_angles [0; 90; 270]%float
           (Some 90%float) (js "2") (js "3") 2); reflexivity.
Defined.

(** The list ["0,7,x"] on three pages, by 45 degrees. *)
Lemma rotate_nothing_selected_witness :
  @rotatePDF right_angles [0; 90; 270]%float (Some 45%float)
    (Some (js "0,7,x"))
  = Normal [0; 90; 270]%float.
Proof.
  apply (@rotate_nothing_selected right_angles [0; 90; 270]%float
           (Some 45%float) (js "0,7,x")).
  - discriminate.
  - reflexivity.
  - repeat constructor.
  - discriminate.
Defined.

End RotateExtras.

(** ** splitPDF with [mode === 'all']: the archive *)

Module SplitAllFacts.
Import JS SplitAll.
Local Open Scope Z_scope.

Lemma js_inj s1 s2 : js s1 = js s2 -> s1 = s2.
Proof.
  unfold js. intros H.
  rewrite <- (string_of_list_ascii_of_string s1).
  rewrite <- (string_of_list_ascii_of_string s2). f_equal.
  revert H. generalize (list_ascii_of_string s1) as l1.
  generalize (list_ascii_of_string s2) as l2.
  intros l2 l1. revert l2.
  induction l1 as [|a l1 IH]; intros [|b l2] H; try discriminate;
    [reflexivity|].
  simpl in H. injection H as Hab Hl. f_equal; [|exact (IH l2 Hl)].
  rewrite <- (ascii_N_embedding a), <- (ascii_N_embedding b), Hab.
  reflexivity.
Qed.

(** Different numbers have different digits. *)
Lemma decimal_inj n m : decimal n = decimal m -> n = m.
Proof.
  unfold decimal. intros H. apply js_inj in H.
  assert (Hu : N.to_uint n = N.to_uint m).
  { assert (Hnonnil : forall k, N.to_uint k <> Decimal.Nil).
    { intros k.
      rewrite <- (DecimalN.Unsigned.of_to k), DecimalN.Unsigned.to_of.
      apply DecimalFacts.unorm_nonnil. }
    pose proof (DecimalString.NilZero.usu (N.to_uint n) (Hnonnil n)) as Hn.
    pose proof (DecimalString.NilZero.usu (N.to_uint m) (Hnonnil m)) as Hm.
    rewrite H in Hn. congruence. }
  rewrite <- (DecimalN.Unsigned.of_to n), <- (DecimalN.Unsigned.of_to m), Hu.
  reflexivity.
Qed.

Lemma entry_name_inj baseName i j :
  0 <= i -> 0 <= j -> entry_name baseName i = entry_name baseName j -> i = j.
Proof.
  unfold entry_name. intros Hi Hj H.
  apply app_inv_head in H. apply app_inv_head in H.
  apply app_inv_tail in H. apply decimal_inj in H. lia.
Qed.

(** With enough fuel the loop appends one entry for every index from [i]
    up to [totalPages - 1]. *)
Lemma archive_loop_spec fuel baseName i totalPages archive :
  (Z.to_nat (totalPages - i) <= fuel)%nat ->
  archive_loop fuel baseName i totalPages archive
  = archive
    ++ map (fun j => (entry_name baseName j, j)) (seqZ i (totalPages - i)).
Proof.
  revert i archive.
  induction fuel as [|fuel IH]; intros i archive Hfuel; simpl.
  - rewrite seqZ_nil by lia. simpl. rewrite app_nil_r. reflexivity.
  - destruct (Z.ltb_spec i totalPages) as [Hlt|Hge].
    + rewrite IH by lia. rewrite (seqZ_cons i) by lia. simpl.
      rewrite <- app_assoc. simpl. do 4 f_equal; lia.
    + rewrite seqZ_nil by lia. simpl. rewrite app_nil_r. reflexivity.
Qed.

Lemma splitPDF_all_spec baseName totalPages :
  splitPDF_all baseName totalPages
  = map (fun j => (entry_name baseName j, j)) (seqZ 0 totalPages).
Proof.
  unfold splitPDF_all. rewrite archive_loop_spec by lia.
  simpl. do 2 f_equal. lia.
Qed.

End SplitAllFacts.

Module SplitAllExtras.
Import JS SplitAll SplitAllFacts.
Local Open Scope Z_scope.

(** X5: with [mode === 'all'] the archive has one entry for every page
    and no other: the entry at position [k] holds page [k] alone and is
    named [<baseName>_page_<k+1>.pdf].  No two entries have the same
    name, so no page overwrites another in the archive. *)
Theorem archive_one_entry_per_page (baseName : jsstring) (totalPages : Z) :
  length (splitPDF_all baseName totalPages) = Z.to_nat totalPages
  /\ (forall k : nat,
         Z.of_nat k < totalPages ->
         splitPDF_all baseName totalPages !! k
         = Some (baseName ++ js "_page_" ++ decimal (N.of_nat (S k))
                   ++ js ".pdf",
                 Z.of_nat k))
  /\ NoDup (map fst (splitPDF_all baseName totalPages))
  /\ map snd (splitPDF_all baseName totalPages) = seqZ 0 totalPages.
Proof.
  rewrite splitPDF_all_spec. split; [|split; [|split]].
  - rewrite length_map, length_seqZ. reflexivity.
  - intros k Hk.
    change (map ?f ?l) with (f <$> l).
    rewrite list_lookup_fmap, lookup_seqZ_lt by exact Hk. simpl.
    rewrite Z.add_0_l. unfold entry_name.
    replace (Z.to_N (Z.of_nat k + 1)) with (N.of_nat (S k)) by lia.
    reflexivity.
  - rewrite map_map. simpl.
    change (map ?f ?l) with (f <$> l).
    apply NoDup_fmap_2_strong; [|apply NoDup_seqZ].
    intros i j Hi Hj. apply elem_of_seqZ in Hi, Hj.
    apply entry_name_inj; lia.
  - rewrite map_map. simpl. apply map_id.
Qed.

(** An archive of three pages. *)
Lemma archive_one_entry_per_page_witness :
  length (splitPDF_all (js "doc") 3) = Z.to_nat 3
  /\ splitPDF_all (js "doc") 3 !! 2%nat
     = Some (js "doc" ++ js "_page_" ++ decimal (N.of_nat 3) ++ js ".pdf",
             Z.of_nat 2)
  /\ NoDup (map fst (splitPDF_all (js "doc") 3)).
Proof.
  destruct (archive_one_entry_per_page (js "doc") 3)
    as (Hlen & Hentry & Hnames & _).
  split; [exact Hlen|]. split; [|exact Hnames].
  apply (Hentry 2%nat). lia.
Defined.

End SplitAllExtras.

(** ** addWatermark: the colour *)

Module WatermarkFacts.
Import JS Watermark.

Lemma is_hex_low c : is_hex c = true -> In c low_units.
Proof.
  intros H. unfold low_units.
  assert (Hc : (c < 103)%N).
  { unfold is_hex in H.
    repeat (apply orb_true_iff in H as [H|H]);
      apply andb_true_iff in H as [_ H]; apply N.leb_le in H; lia. }
  apply in_map_iff. exists (N.to_nat c). split; [lia|].
  apply in_seq. lia.
Qed.

Lemma all_pairs_hex check c1 c2 :
  all_pairs check = true ->
  is_hex c1 = true -> is_hex c2 = true -> check c1 c2 = true.
Proof.
  unfold all_pairs. intros Hall H1 H2.
  rewrite forallb_forall in Hall.
  specialize (Hall c1 (is_hex_low c1 H1)).
  rewrite forallb_forall in Hall.
  specialize (Hall c2 (is_hex_low c2 H2)).
  rewrite H1, H2 in Hall. exact Hall.
Qed.

Lemma channel_unit c1 c2 :
  is_hex c1 = true -> is_hex c2 = true ->
  unit_interval (channel [c1; c2]) = true.
Proof.
  apply (all_pairs_hex (fun c1 c2 => unit_interval (channel [c1; c2]))).
  vm_compute. reflexivity.
Qed.

Lemma jsnum_eqb_eq x y : jsnum_eqb x y = true -> x = y.
Proof.
  destruct x, y; simpl; try discriminate; [reflexivity|].
  intros H. apply Z.eqb_eq in H. congruence.
Qed.

Lemma channel_upper c1 c2 :
  is_hex c1 = true -> is_hex c2 = true ->
  channel [upper_hex c1; upper_hex c2] = channel [c1; c2].
Proof.
  intros H1 H2. unfold channel. f_equal. f_equal.
  apply jsnum_eqb_eq.
  apply (all_pairs_hex
           (fun c1 c2 => jsnum_eqb
                           (parseInt_radix [upper_hex c1; upper_hex c2] 16)
                           (parseInt_radix [c1; c2] 16)));
    [vm_compute; reflexivity|assumption|assumption].
Qed.

Lemma is_hex_upper c : is_hex (upper_hex c) = is_hex c.
Proof.
  unfold upper_hex, is_hex.
  destruct (N.leb_spec 97 c), (N.leb_spec c 102); simpl;
    repeat match goal with
           | |- context [(?a <=? ?b)%N] => destruct (N.leb_spec a b)
           end; simpl; try reflexivity; lia.
Qed.

Lemma upper_hex_hash c : (upper_hex c =? 35)%N = (c =? 35)%N.
Proof.
  unfold upper_hex.
  destruct (N.leb_spec 97 c), (N.leb_spec c 102); simpl; try reflexivity.
  destruct (N.eqb_spec (c - 32) 35), (N.eqb_spec c 35); try reflexivity; lia.
Qed.

Lemma is_hex_not_hash c : is_hex c = true -> (c =? 35)%N = false.
Proof.
  intros H. apply N.eqb_neq. intros ->. discriminate.
Qed.

(** The six code units of a match, and its groups. *)
Lemma hex_exec_Some hex g1 g2 g3 :
  hex_exec hex = Some (g1, g2, g3) ->
  exists c1 c2 c3 c4 c5 c6,
    (hex = [c1; c2; c3; c4; c5; c6] \/ hex = 35%N :: [c1; c2; c3; c4; c5; c6])
    /\ forallb is_hex [c1; c2; c3; c4; c5; c6] = true
    /\ g1 = [c1; c2] /\ g2 = [c3; c4] /\ g3 = [c5; c6].
Proof.
  unfold hex_exec.
  set (body := match hex with
               | c :: t => if (c =? 35)%N then t else hex
               | [] => hex
               end).
  assert (Hbody : hex = body \/ hex = 35%N :: body).
  { subst body. destruct hex as [|c t]; [left; reflexivity|].
    destruct (N.eqb_spec c 35) as [->|_]; [right|left]; reflexivity. }
  clearbody body.
  destruct body as [|c1 [|c2 [|c3 [|c4 [|c5 [|c6 [|c7 rest]]]]]]];
    try discriminate.
  destruct (forallb is_hex [c1; c2; c3; c4; c5; c6]) eqn:Hhex;
    [|discriminate].
  intros [= <- <- <-]. exists c1, c2, c3, c4, c5, c6.
  repeat split; [|exact Hhex]. destruct Hbody as [->| ->]; auto.
Qed.


Lemma hex_exec_unfold hex : hex_exec hex = groups (strip_hash hex).
Proof. reflexivity. Qed.

Lemma strip_hash_upper hex :
  strip_hash (map upper_hex hex) = map upper_hex (strip_hash hex).
Proof.
  destruct hex as [|c t]; [reflexivity|]. simpl.
  rewrite upper_hex_hash. destruct (c =? 35)%N; reflexivity.
Qed.

End WatermarkFacts.

Module WatermarkExtras.
Import JS Watermark WatermarkFacts.


(** X7: for every string, each channel that [hexToRgb] returns lies
    between 0 and 1, the range that [rgb] accepts. *)
Theorem hexToRgb_in_range (hex : jsstring) :
  unit_interval (r (hexToRgb hex)) = true
  /\ unit_interval (g (hexToRgb hex)) = true
  /\ unit_interval (b (hexToRgb hex)) = true.
Proof.
  unfold hexToRgb. destruct (hex_exec hex) as [[[g1 g2] g3]|] eqn:Hexec.
  - apply hex_exec_Some in Hexec
      as (c1 & c2 & c3 & c4 & c5 & c6 & _ & Hall & -> & -> & ->).
    simpl in Hall.
    repeat (apply andb_true_iff in Hall as [? Hall]).
    simpl. repeat split; apply channel_unit; assumption.
  - simpl. repeat split; vm_compute; reflexivity.
Qed.

(** X8: the colour does not depend on the case of the letters [a] to
    [f], nor, for six hex digits, on the leading [#]. *)
Theorem hexToRgb_case_and_hash (hex : jsstring) :
  hexToRgb (map upper_hex hex) = hexToRgb hex
  /\ (forallb is_hex hex = true -> hexToRgb (35%N :: hex) = hexToRgb hex).
Proof.
  split.
  - unfold hexToRgb. rewrite !hex_exec_unfold, strip_hash_upper.
    generalize (strip_hash hex) as body. intros body.
    assert (Hall : forallb is_hex (map upper_hex body) = forallb is_hex body).
    { induction body as [|c body IH]; [reflexivity|]. simpl.
      rewrite is_hex_upper, IH. reflexivity. }
    unfold groups. rewrite Hall.
    destruct body as [|c1 [|c2 [|c3 [|c4 [|c5 [|c6 [|c7 rest]]]]]]];
      try reflexivity.
    simpl map. cbv beta iota.
    destruct (forallb is_hex [c1; c2; c3; c4; c5; c6]) eqn:Hhex;
      [|reflexivity].
    simpl in Hhex. repeat (apply andb_true_iff in Hhex as [? Hhex]).
    rewrite !channel_upper by assumption. reflexivity.
  - intros Hall. unfold hexToRgb, hex_exec.
    destruct hex as [|c t]; [reflexivity|].
    assert (Hc : is_hex c = true).
    { simpl in Hall. apply andb_true_iff in Hall as [H _]. exact H. }
    rewrite N.eqb_refl, (is_hex_not_hash c Hc). reflexivity.
Qed.

(** The colour [#FF8000]. *)
Lemma hexToRgb_case_and_hash_witness :
  hexToRgb (map upper_hex (js "ff8000")) = hexToRgb (js "ff8000")
  /\ hexToRgb (35%N :: js "ff8000") = hexToRgb (js "ff8000").
Proof.
  destruct (hexToRgb_case_and_hash (js "ff8000")) as [Hcase Hhash].
  split; [exact Hcase|apply Hhash; reflexivity].
Defined.

End WatermarkExtras.

(** ** protectPDF and unlockPDF: the errors *)

Module ProtectFacts.
Import JS Compress Protect.

Lemma starts_with_app prefix s : starts_with (prefix ++ s) prefix = true.
Proof.
  induction prefix as [|c prefix IH]; simpl; [destruct s; reflexivity|].
  rewrite N.eqb_refl. exact IH.
Qed.

(** The message the service throws for an encrypted document passes the
    test of its own [catch]. *)
Lemma already_protected_passes :
  includes_string already_protected (js "already password protected") = true.
Proof. vm_compute. reflexivity. Qed.

(** What the [catch] of [protectPDF] throws either passed its test or
    carries its prefix. *)
Lemma protect_catch_kind message :
  includes_string (protect_catch message) (js "already password protected")
  = true
  \/ starts_with (protect_catch message) (js "Failed to process PDF: ")
     = true.
Proof.
  unfold protect_catch.
  destruct (includes_string message (js "already password protected"))
    eqn:Hinc; [left; exact Hinc|right; apply starts_with_app].
Qed.

(** What the [catch] of [unlockPDF] throws is one of its two fixed
    messages or carries its prefix. *)
Lemma unlock_catch_kind message :
  unlock_catch message = incorrect_password
  \/ unlock_catch message = needs_password
  \/ starts_with (unlock_catch message) (js "Failed to unlock PDF: ") = true.
Proof.
  unfold unlock_catch.
  destruct (includes_string message (js "Incorrect password"));
    [left; reflexivity|].
  destruct (includes_string message (js "Password is required"));
    [right; left; reflexivity|].
  right; right. apply starts_with_app.
Qed.

End ProtectFacts.

Module ProtectExtras.
Import JS Compress Protect ProtectFacts.

Section WithLibrary.
Context {lib : Library}.

(** X9: a document that is already encrypted is never protected again:
    with a password given, the request fails with the message "This PDF
    is already password protected. Please unlock it first.", as it is
    (the [catch] lets it through without the prefix it puts before other
    failures), and nothing is saved. *)
Theorem protect_refuses_encrypted (path : jsstring) (pdfBytes : bytes)
    (originalname pw : jsstring) (pdf : Doc) :
  truthy_string pw = true ->
  readFileSync path = Ok pdfBytes ->
  load_ignoreEncryption pdfBytes = Ok pdf ->
  isEncrypted pdf = true ->
  protectPDF path originalname (Some pw) = Error already_protected.
Proof.
  intros Hpw Hread Hload Henc. unfold protectPDF, protect_try, protect_catch.
  rewrite Hpw, Hread, Hload, Henc, already_protected_passes. reflexivity.
Qed.

(** X10: the outcomes of [protectPDF].  Without a password it fails with
    "Password is required" and reads nothing, whatever the file.  With a
    password, a failure to read the file is thrown as it is: the read is
    outside the [try], so the message gets no prefix.  It returns a
    handle exactly when the file was read, the document loaded and was
    not encrypted, and the save and the write went through.  A failure
    inside the [try] is passed on as it is when its message contains
    "already password protected" and behind "Failed to process PDF: "
    otherwise.  So every failure is the missing password, the error of
    the read, or a message that contains "already password protected" or
    starts with "Failed to process PDF: ". *)
Theorem protect_outcomes (path originalname : jsstring)
    (password : option jsstring) :
  (password = None \/ password = Some [] ->
   protectPDF path originalname password = Error password_required)
  /\ (forall pw m,
         password = Some pw -> truthy_string pw = true ->
         readFileSync path = Error m ->
         protectPDF path originalname password = Error m)
  /\ (forall handle,
         protectPDF path originalname password = Ok handle
         <-> exists pw pdfBytes pdf protectedBytes,
               password = Some pw /\ truthy_string pw = true
               /\ readFileSync path = Ok pdfBytes
               /\ load_ignoreEncryption pdfBytes = Ok pdf
               /\ isEncrypted pdf = false
               /\ save_protected pdf pw = Ok protectedBytes
               /\ saveOutput protectedBytes originalname (js "_protected")
                  = Ok handle)
  /\ (forall pw pdfBytes cause,
         password = Some pw -> truthy_string pw = true ->
         readFileSync path = Ok pdfBytes ->
         protect_try pdfBytes originalname pw = Error cause ->
         protectPDF path originalname password
         = Error (if includes_string cause (js "already password protected")
                  then cause
                  else js "Failed to process PDF: " ++ cause))
  /\ (forall message,
         protectPDF path originalname password = Error message ->
         message = password_required
         \/ readFileSync path = Error message
         \/ includes_string message (js "already password protected") = true
         \/ starts_with message (js "Failed to process PDF: ") = true).
Proof.
  split; [|split; [|split; [|split]]].
  - intros [->| ->]; reflexivity.
  - intros pw m -> Hpw Hread. unfold protectPDF.
    rewrite Hpw, Hread. reflexivity.
  - intros handle. unfold protectPDF, protect_try. split.
    + destruct password as [pw|]; [|discriminate].
      destruct (truthy_string pw) eqn:Hpw; [|discriminate].
      destruct (readFileSync path) as [pdfBytes|] eqn:Hread;
        [|discriminate].
      destruct (load_ignoreEncryption pdfBytes) as [pdf|] eqn:Hload;
        [|discriminate].
      destruct (isEncrypted pdf) eqn:Henc; [discriminate|].
      destruct (save_protected pdf pw) as [protectedBytes|] eqn:Hsave;
        [|discriminate].
      destruct (saveOutput protectedBytes originalname (js "_protected"))
        as [h|] eqn:Hout; [|discriminate].
      intros [= <-]. exists pw, pdfBytes, pdf, protectedBytes.
      repeat split; assumption.
    + intros (pw & pdfBytes & pdf & protectedBytes & -> & Hpw & Hread
              & Hload & Henc & Hsave & Hout).
      rewrite Hpw, Hread, Hload, Henc, Hsave, Hout. reflexivity.
  - intros pw pdfBytes cause -> Hpw Hread Htry. unfold protectPDF.
    rewrite Hpw, Hread, Htry. reflexivity.
  - intros message. unfold protectPDF.
    destruct password as [pw|]; [|intros [= <-]; left; reflexivity].
    destruct (truthy_string pw); [|intros [= <-]; left; reflexivity].
    destruct (readFileSync path) as [pdfBytes|m];
      [|intros [= <-]; right; left; reflexivity].
    destruct (protect_try pdfBytes originalname pw) as [handle|cause];
      [discriminate|].
    intros [= <-]. right; right. apply protect_catch_kind.
Qed.

(** X11: the outcomes of [unlockPDF].  An absent password is the empty
    one.  A failure to read the file is thrown as it is: the read is
    outside the [try], so the message is neither replaced nor prefixed,
    whatever it contains.  It returns a handle exactly when the file was
    read, the document loaded with the password, and the save and the
    write went through.  A failure inside the [try] whose message
    contains "Incorrect password" is reported as "Incorrect password.
    Please check your password and try again.", also when it contains
    "Password is required" as well; one that only contains "Password is
    required" as "This PDF is password protected. Please enter the
    password."; every other one behind "Failed to unlock PDF: ".  So
    every failure is the error of the read, one of the two fixed
    messages, or a message that starts with "Failed to unlock PDF: ". *)
Theorem unlock_outcomes (path originalname : jsstring)
    (password : option jsstring) :
  unlockPDF path originalname None = unlockPDF path originalname (Some [])
  /\ (forall m,
         readFileSync path = Error m ->
         unlockPDF path originalname password = Error m)
  /\ (forall handle,
         unlockPDF path originalname password = Ok handle
         <-> exists pdfBytes pdf unlockedBytes,
               readFileSync path = Ok pdfBytes
               /\ load_password pdfBytes (password_or_empty password)
                  = Ok pdf
               /\ save pdf = Ok unlockedBytes
               /\ saveOutput unlockedBytes originalname (js "_unlocked")
                  = Ok handle)
  /\ (forall pdfBytes cause,
         readFileSync path = Ok pdfBytes ->
         unlock_try pdfBytes originalname password = Error cause ->
         unlockPDF path originalname password
         = Error (if includes_string cause (js "Incorrect password")
                  then incorrect_password
                  else if includes_string cause (js "Password is required")
                  then needs_password
                  else js "Failed to unlock PDF: " ++ cause))
  /\ (forall message,
         unlockPDF path originalname password = Error message ->
         readFileSync path = Error message
         \/ message = incorrect_password
         \/ message = needs_password
         \/ starts_with message (js "Failed to unlock PDF: ") = true).
Proof.
  split; [reflexivity|split; [|split; [|split]]].
  - intros m Hread. unfold unlockPDF. rewrite Hread. reflexivity.
  - intros handle. unfold unlockPDF, unlock_try. split.
    + destruct (readFileSync path) as [pdfBytes|] eqn:Hread;
        [|discriminate].
      destruct (load_password pdfBytes (password_or_empty password))
        as [pdf|] eqn:Hload; [|discriminate].
      destruct (save pdf) as [unlockedBytes|] eqn:Hsave; [|discriminate].
      destruct (saveOutput unlockedBytes originalname (js "_unlocked"))
        as [h|] eqn:Hout; [|discriminate].
      intros [= <-]. exists pdfBytes, pdf, unlockedBytes.
      repeat split; assumption.
    + intros (pdfBytes & pdf & unlockedBytes & Hread & Hload & Hsave
              & Hout).
      rewrite Hread, Hload, Hsave, Hout. reflexivity.
  - intros pdfBytes cause Hread Htry. unfold unlockPDF.
    rewrite Hread, Htry. reflexivity.
  - intros message. unfold unlockPDF.
    destruct (readFileSync path) as [pdfBytes|m];
      [|intros [= <-]; left; reflexivity].
    destruct (unlock_try pdfBytes originalname password) as [handle|cause];
      [discriminate|].
    intros [= <-]. right. apply unlock_catch_kind.
Qed.

End WithLibrary.

(** An encrypted document, with the password ["secret"]. *)
Lemma protect_refuses_encrypted_witness :
  @protectPDF flag_library (js "locked.pdf") (js "a.pdf")
    (Some (js "secret"))
  = Error already_protected.
Proof.
  apply (@protect_refuses_encrypted flag_library (js "locked.pdf")
           [Byte.x01] (js "a.pdf") (js "secret") true); reflexivity.
Defined.

(** No password and a file that does not exist: the password is asked
    for.  A password and a file that does not exist: the error of the
    read, as it is.  A file that does not parse: the library's message
    behind the prefix. *)
Lemma protect_outcomes_witness :
  @protectPDF flag_library (js "missing.pdf") (js "a.pdf") None
  = Error password_required
  /\ @protectPDF flag_library (js "missing.pdf") (js "a.pdf")
       (Some (js "pw"))
     = Error (js "ENOENT: no such file or directory")
  /\ @protectPDF flag_library (js "empty.pdf") (js "a.pdf")
       (Some (js "pw"))
     = Error (js "Failed to process PDF: No PDF header found").
Proof.
  split; [|split].
  - apply (proj1 (@protect_outcomes flag_library (js "missing.pdf")
                    (js "a.pdf") None)).
    left. reflexivity.
  - apply (proj1 (proj2 (@protect_outcomes flag_library (js "missing.pdf")
                           (js "a.pdf") (Some (js "pw"))))
             (js "pw")); reflexivity.
  - apply (proj1 (proj2 (proj2 (proj2
             (@protect_outcomes flag_library (js "empty.pdf") (js "a.pdf")
                (Some (js "pw"))))))
             (js "pw") [] (js "No PDF header found")); reflexivity.
Defined.

(** A file that does not exist: the error of the read, as it is.  The
    encrypted document with a wrong password: the fixed message. *)
Lemma unlock_outcomes_witness :
  @unlockPDF flag_library (js "missing.pdf") (js "a.pdf")
    (Some (js "secret"))
  = Error (js "ENOENT: no such file or directory")
  /\ @unlockPDF flag_library (js "locked.pdf") (js "a.pdf")
       (Some (js "guess"))
     = Error incorrect_password.
Proof.
  split.
  - apply (proj1 (proj2 (@unlock_outcomes flag_library (js "missing.pdf")
                           (js "a.pdf") (Some (js "secret"))))).
    reflexivity.
  - apply (proj1 (proj2 (proj2 (proj2
             (@unlock_outcomes flag_library (js "locked.pdf") (js "a.pdf")
                (Some (js "guess"))))))
             [Byte.x01] (js "Incorrect password")); reflexivity.
Defined.

End ProtectExtras.

(** ** The compress route *)

Module RoutesExtras.
Import JS Compress CompressFacts Routes.

Section WithCollaborators.
Context {lib : Collaborators}.

(** X12: the compress route hands the service a quality and never a
    target size, so a request through it is always a single pass with the
    settings of the tier table: [(30, 0.5)] for ['low'], [(80, 1.0)] for
    ['high'], and [(60, 0.75)] for everything else, an absent or empty
    field included.  The target-size loop and its starting point
    [(70, 0.8)] are out of reach of the route. *)
Theorem compress_route_single_pass (pdfBytes : bytes)
    (quality : option jsstring) :
  fst (compress_route pdfBytes quality [])
  = [tier_settings (Some (or_default quality (js "medium")))]
  /\ snd (compress_route pdfBytes quality [])
     = run_call pdfBytes
         (tier_settings (Some (or_default quality (js "medium"))))
  /\ tier_settings (Some (or_default quality (js "medium")))
     = (if bool_decide (quality = Some (js "low")) then (30%Z, 0.5%float)
        else if bool_decide (quality = Some (js "high"))
        then (80%Z, 1.0%float)
        else (60%Z, 0.75%float))
  /\ forall rest,
       fst (compress_route pdfBytes quality []) <> (70%Z, 0.8%float) :: rest.
Proof.
  set (options := {| opt_quality := Some (or_default quality (js "medium"));
                     opt_targetSize := None |}).
  destruct (compressPDF_no_target pdfBytes options eq_refl)
    as [Hcalls Hout].
  assert (Htier : tier_settings (Some (or_default quality (js "medium")))
                  = (if bool_decide (quality = Some (js "low"))
                     then (30%Z, 0.5%float)
                     else if bool_decide (quality = Some (js "high"))
                     then (80%Z, 1.0%float)
                     else (60%Z, 0.75%float))).
  { unfold tier_settings, or_default.
    destruct quality as [[|c s]|]; reflexivity. }
  split; [exact Hcalls|]. split; [exact Hout|]. split; [exact Htier|].
  intros rest Heq. unfold compress_route in Heq. fold options in Heq.
  unfold calls_of in Hcalls. rewrite Hcalls in Heq. simpl in Heq.
  rewrite Htier in Heq.
  apply (f_equal (fun l : list call =>
                    match l with
                    | c :: _ => fst c
                    | [] => 0%Z
                    end)) in Heq.
  simpl in Heq. repeat case_bool_decide; discriminate.
Qed.

End WithCollaborators.

End RoutesExtras.

(** ** The browser's FileUploader *)

Module UploaderFacts.
Import JS Protect Uploader.
Local Open Scope Z_scope.

Lemma length_slice_to {A} (l : list A) (end_ : Z) :
  0 <= end_ -> Z.of_nat (length (slice_to l end_)) <= end_.
Proof.
  intros He. unfold slice_to.
  destruct (Z.ltb_spec end_ 0); [lia|]. rewrite length_take. lia.
Qed.

Lemma length_splice_one {A} (l : list A) (index : Z) :
  (length (splice_one l index) <= length l)%nat.
Proof.
  unfold splice_one. generalize (Z.to_nat
    (if index <? 0 then Z.max (Z.of_nat (length l) + index) 0
     else Z.min index (Z.of_nat (length l)))) as n.
  induction l as [|x l IH]; intros [|n]; simpl; try lia.
  specialize (IH n). lia.
Qed.

Lemma do_call_capacity u c :
  Z.of_nat (length (files u)) <= maxFiles u ->
  Z.of_nat (length (files (do_call u c))) <= maxFiles (do_call u c)
  /\ maxFiles (do_call u c) = maxFiles u
  /\ acceptedTypes (do_call u c) = acceptedTypes u.
Proof.
  intros Hcap. destruct c as [fileList|index|]; simpl.
  - repeat split. rewrite length_app.
    pose proof (length_slice_to
                  (filter (fun f => accepted (acceptedTypes u) f = true)
                     fileList)
                  (maxFiles u - Z.of_nat (length (files u)))) as Hslice.
    lia.
  - repeat split. pose proof (length_splice_one (files u) index). lia.
  - repeat split. lia.
Qed.

End UploaderFacts.

Module UploaderExtras.
Import JS Protect Uploader UploaderFacts.
Local Open Scope Z_scope.

(** X13: an uploader that holds no more than [maxFiles] files never
    holds more, whatever is added, removed or cleared, in whatever order;
    its limit and its accepted types do not change.  A fresh uploader
    holds none, and its limit is 20 when [options.maxFiles] is absent, 0
    or [NaN]. *)
Theorem uploader_capacity (u : FileUploader) (calls : list call) :
  Z.of_nat (length (files u)) <= maxFiles u ->
  Z.of_nat (length (files (do_calls u calls))) <= maxFiles u
  /\ maxFiles (do_calls u calls) = maxFiles u
  /\ acceptedTypes (do_calls u calls) = acceptedTypes u
  /\ (forall types,
         files (new_uploader None types) = []
         /\ maxFiles (new_uploader None types) = 20
         /\ maxFiles (new_uploader (Some (Num 0)) types) = 20
         /\ maxFiles (new_uploader (Some NaN) types) = 20).
Proof.
  intros Hcap.
  assert (H : Z.of_nat (length (files (do_calls u calls)))
              <= maxFiles (do_calls u calls)
              /\ maxFiles (do_calls u calls) = maxFiles u
              /\ acceptedTypes (do_calls u calls) = acceptedTypes u).
  { unfold do_calls. revert u Hcap.
    induction calls as [|c calls IH]; intros u Hcap; simpl; [auto|].
    destruct (do_call_capacity u c Hcap) as (Hcap1 & Hmax1 & Htypes1).
    destruct (IH (do_call u c) Hcap1) as (Hcap2 & Hmax2 & Htypes2).
    repeat split; congruence. }
  destruct H as (Hcap' & Hmax & Htypes).
  repeat split; try assumption; lia.
Qed.

(** X14: [addFiles] keeps the files it had, in place, and appends files
    of the given list in the order of that list; each appended file passed
    the type filter, which, when types are given, means that its type is
    one of them or starts with what one of them has before its [*]. *)
Theorem addFiles_appends_accepted (u : FileUploader)
    (fileList : list File) :
  exists added : list File,
    files (addFiles u fileList) = files u ++ added
    /\ added `sublist_of` fileList
    /\ Forall (fun f => accepted (acceptedTypes u) f = true) added
    /\ (acceptedTypes u <> [] ->
        Forall (fun f =>
                  exists type,
                    type ∈ acceptedTypes u
                    /\ if includes type star
                       then starts_with (file_type f)
                              (remove_first star type) = true
                       else file_type f = type) added).
Proof.
  set (newFiles := filter (fun f => accepted (acceptedTypes u) f = true)
                     fileList).
  exists (slice_to newFiles
            (maxFiles u - Z.of_nat (length (files u)))).
  assert (Hacc : Forall (fun f => accepted (acceptedTypes u) f = true)
                   (slice_to newFiles
                      (maxFiles u - Z.of_nat (length (files u))))).
  { unfold slice_to. apply Forall_take. subst newFiles.
    apply Forall_forall. intros f Hf.
    apply list_elem_of_filter in Hf as [Hf _]. exact Hf. }
  split; [reflexivity|]. split; [|split; [exact Hacc|]].
  - unfold slice_to. etransitivity; [apply sublist_take|].
    subst newFiles. apply sublist_filter.
  - intros Htypes. eapply Forall_impl; [exact Hacc|].
    intros f Hf. unfold accepted in Hf.
    destruct (acceptedTypes u) as [|t types] eqn:Hu; [contradiction|].
    rewrite <- Hu in *. 
    replace (0 <? Z.of_nat (length (acceptedTypes u))) with true in Hf
      by (rewrite Hu; reflexivity).
    simpl in Hf.
    destruct (existsb (type_matches (file_type f)) (acceptedTypes u))
      eqn:Hex; [|discriminate].
    apply existsb_exists in Hex as (type & Hin & Hmatch).
    exists type. split; [apply list_elem_of_In; exact Hin|].
    unfold type_matches in Hmatch.
    destruct (includes type star); [exact Hmatch|].
    apply bool_decide_eq_true in Hmatch. exact Hmatch.
Qed.

(** An uploader for images, offered a PNG, a PDF and a JPEG. *)
Lemma addFiles_appends_accepted_witness :
  let png := {| file_name := js "b.png"; file_type := js "image/png" |} in
  let pdf := {| file_name := js "a.pdf"; file_type := js "application/pdf" |} in
  let jpg := {| file_name := js "c.jpg"; file_type := js "image/jpeg" |} in
  let u := new_uploader None (Some [js "image/*"]) in
  files (addFiles u [png; pdf; jpg]) = [png; jpg]
  /\ exists added : list File,
       files (addFiles u [png; pdf; jpg]) = files u ++ added
       /\ added `sublist_of` [png; pdf; jpg]
       /\ Forall (fun f =>
                    exists type,
                      type ∈ acceptedTypes u
                      /\ if includes type star
                         then starts_with (file_type f)
                                (remove_first star type) = true
                         else file_type f = type) added.
Proof.
  intros png pdf jpg u. split; [reflexivity|].
  destruct (addFiles_appends_accepted u [png; pdf; jpg])
    as (added & Hfiles & Hsub & _ & Htypes).
  exists added. split; [exact Hfiles|]. split; [exact Hsub|].
  apply Htypes. discriminate.
Defined.

(** A fresh uploader for two files, and five calls. *)
Lemma uploader_capacity_witness :
  let pdf := {| file_name := js "a.pdf"; file_type := js "application/pdf" |} in
  let png := {| file_name := js "b.png"; file_type := js "image/png" |} in
  let u := new_uploader (Some (Num 2)) None in
  let calls := [AddFiles [pdf; png; pdf]; RemoveFile (-1);
                AddFiles [pdf; pdf; pdf]; ClearFiles; AddFiles [png; pdf]] in
  Z.of_nat (length (files (do_calls u calls))) <= maxFiles u
  /\ maxFiles (do_calls u calls) = maxFiles u.
Proof.
  intros pdf png u calls.
  destruct (uploader_capacity u calls) as (Hcap & Hmax & _).
  - simpl. lia.
  - split; assumption.
Defined.

End UploaderExtras.

(** ** More on the page-range parser and on a compression pass *)

Module MoreFacts.
Import JS JSMore Split JSFacts JSMoreFacts.

Lemma trim_start_white_app w s :
  forallb is_white w = true -> trim_start (w ++ s) = trim_start s.
Proof.
  induction w as [|c w IH]; simpl; [reflexivity|].
  intros H. apply andb_true_iff in H as [-> H]. exact (IH H).
Qed.

Lemma parseInt_white_app w s :
  forallb is_white w = true -> parseInt (w ++ s) = parseInt s.
Proof.
  intros Hw. rewrite !parseInt_unfold, (trim_start_white_app w s Hw).
  reflexivity.
Qed.

End MoreFacts.

Module MoreExtras.
Import JS Split Compress JSFacts JSMoreFacts SplitFacts CompressFacts
  MoreFacts.
Local Open Scope Z_scope.

(** X15: for a document with at least one page, every index that
    [splitPDF] hands to [copyPages] is a number [i] with
    [0 <= i < totalPages], whatever the page expression is and whether it
    is there or not: no page that does not exist is ever asked for. *)
Theorem pageIndices_in_bounds (pages : option jsstring) (totalPages : Z) :
  0 < totalPages ->
  Forall (valid_index totalPages) (splitPDF_pageIndices pages totalPages).
Proof.
  intros Hpos.
  assert (Hdefault : Forall (valid_index totalPages) [Num 0]).
  { repeat constructor. exists 0. split; [reflexivity|lia]. }
  destruct pages as [[|c s]|]; [exact Hdefault| |exact Hdefault].
  apply pageIndices_valid.
Qed.

Lemma pageIndices_in_bounds_witness :
  Forall (valid_index 5)
    (splitPDF_pageIndices (Some (js "0,3,9,2-7,x")) 5).
Proof.
  apply (pageIndices_in_bounds (Some (js "0,3,9,2-7,x")) 5). lia.
Defined.

(** X16: an expression that is one token without a hyphen, reading as
    the number [n], selects page [n] alone when the document has one, and
    nothing otherwise ([0], a negative number, a number past the last
    page). *)
Theorem single_number_token (s : jsstring) (n totalPages : Z) :
  includes s comma = false -> includes s hyphen = false ->
  parseInt (trim s) = Num n ->
  splitPDF_pageIndices (Some s) totalPages
  = if (1 <=? n) && (n <=? totalPages) then [Num (n - 1)] else [].
Proof.
  intros Hc Hh Hn. unfold splitPDF_pageIndices.
  replace (truthy_string s) with true
    by (destruct s; [discriminate|reflexivity]).
  rewrite (split_none comma s Hc). simpl. unfold push_part.
  rewrite Hh. unfold to_index. rewrite Hn. unfold js_ge. simpl.
  destruct (Z.leb_spec 0 (n - 1)), (Z.ltb_spec (n - 1) totalPages),
    (Z.leb_spec 1 n), (Z.leb_spec n totalPages); simpl;
    try reflexivity; lia.
Qed.

Lemma single_number_token_witness :
  splitPDF_pageIndices (Some (js " 4 ")) 5
  = if (1 <=? 4) && (4 <=? 5) then [Num (4 - 1)] else [].
Proof.
  apply (single_number_token (js " 4 ") 4 5); reflexivity.
Defined.

(** X17: white space before and after a page number does not change the
    page it names, in [splitPDF] and in [rotatePDF] alike: the index of a
    token is that of the token without the white space around it. *)
Theorem to_index_ignores_white_space (w1 s w2 : jsstring) :
  forallb is_white w1 = true -> forallb is_white w2 = true ->
  to_index (w1 ++ s ++ w2) = to_index s.
Proof.
  intros H1 H2. unfold to_index. rewrite !parseInt_trim.
  rewrite (parseInt_white_app w1 (s ++ w2) H1).
  rewrite (parseInt_app_white s w2 H2). reflexivity.
Qed.

Lemma to_index_ignores_white_space_witness :
  to_index (js "  " ++ js "12" ++ [9%N; 32%N]) = to_index (js "12").
Proof.
  apply (to_index_ignores_white_space (js "  ") (js "12") [9%N; 32%N]);
    reflexivity.
Defined.

Section WithCollaborators.
Context {lib : Collaborators}.

(** X18: a compression pass neither adds nor removes an indirect object:
    the processed table has exactly the references of the loaded one, and
    every object in it is the loaded object or the stream that replaced
    it, which is again a JPEG image that a pass would handle. *)
Theorem pass_keeps_references (q : Z) (r : float) (ctx : PDFContext) :
  dom (compress_objects q r ctx) = dom ctx
  /\ forall ref obj',
       compress_objects q r ctx !! ref = Some obj' ->
       exists obj,
         ctx !! ref = Some obj
         /\ (obj' = obj \/ (eligible obj = true /\ eligible obj' = true)).
Proof.
  split.
  - apply set_eq. intros ref. rewrite !elem_of_dom.
    rewrite compress_objects_lookup.
    destruct (ctx !! ref); split; intros [x Hx]; eauto; discriminate.
  - intros ref obj' Hlook. rewrite compress_objects_lookup in Hlook.
    destruct (ctx !! ref) as [obj|]; [|discriminate].
    injection Hlook as <-. exists obj. split; [reflexivity|].
    unfold reencoded. destruct obj as [dict contents|tag]; [|left; reflexivity].
    destruct (eligible (PDFRawStream dict contents)) eqn:Hel;
      [|left; reflexivity].
    unfold reencode_image.
    destruct (dict !! "Width") as [w|]; [|left; reflexivity].
    destruct (dict !! "Height") as [h|]; [|left; reflexivity].
    destruct (sharp_resize_jpeg contents _ _ q); [|left; reflexivity].
    right. split; reflexivity.
Qed.

End WithCollaborators.

(** One pass over the sample: the references stay, and the image of 1000
    by 1000 is replaced by a JPEG image. *)
Lemma pass_keeps_references_witness :
  dom (@compress_objects Sample.lib 30 0.5 Sample.table) = dom Sample.table
  /\ exists obj,
       Sample.table !! (2%N, 0%N) = Some obj
       /\ (PDFRawStream (new_stream_dict 500 500)
             (repeat Byte.x01 (Z.to_nat 6000)) = obj
           \/ (eligible obj = true
               /\ eligible (PDFRawStream (new_stream_dict 500 500)
                              (repeat Byte.x01 (Z.to_nat 6000))) = true)).
Proof.
  destruct (@pass_keeps_references Sample.lib 30 0.5%float Sample.table)
    as (Hdom & Hobj).
  split; [exact Hdom|].
  apply (Hobj (2%N, 0%N)). vm_compute. reflexivity.
Defined.

End MoreExtras.
